(** * The stash wizard of GitLens ([src/commands/git/stash.ts])

    A shallow embedding of [StashGitCommand]: its constructor, its
    confirmation getters, the step sequencer [steps] and the four
    subcommand chains [applyOrPop], [drop], [list] and [push].

    The generator functions are embedded in a small monad that threads the
    mutable state object, consumes the answers of the presentation layer
    from a script and records what the code does (steps yielded, git
    operations issued, messages shown) in a log.  Exceptions, [break],
    [continue] and [return] are outcomes of the monad, so every definition
    follows the text of the TypeScript method it embeds. *)

From Stdlib Require Import String Ascii List ZArith Bool Lia DecimalString.
Import ListNotations.

Local Open Scope list_scope.
Local Open Scope Z_scope.
Local Open Scope string_scope.

(** ** JavaScript strings

    A string is the sequence of its code units; [String.length] and
    [String.substring] count units the way [.length] and [.substring] do. *)

Module Js.

(** [s.includes(sub)] *)
Fixpoint includes (s sub : string) : bool :=
  String.prefix sub s
  || match s with
     | EmptyString => false
     | String _ rest => includes rest sub
     end.

(** White space removed by [trim], among the units below 256. *)
Definition is_space (c : ascii) : bool :=
  let n := nat_of_ascii c in
  ((9 <=? n)%nat && (n <=? 13)%nat) || (n =? 32)%nat || (n =? 160)%nat.

Fixpoint trimStart (s : string) : string :=
  match s with
  | EmptyString => EmptyString
  | String c rest => if is_space c then trimStart rest else s
  end.

Fixpoint trimEnd (s : string) : string :=
  match s with
  | EmptyString => EmptyString
  | String c rest =>
      match trimEnd rest with
      | EmptyString => if is_space c then EmptyString else String c EmptyString
      | t => String c t
      end
  end.

Definition trim (s : string) : string := trimEnd (trimStart s).

(** [s.replace(/\n+?/g, by)]: the lazy [+?] matches one line feed at a
    time, so every line feed is replaced. *)
Fixpoint replace_newlines (by_ s : string) : string :=
  match s with
  | EmptyString => EmptyString
  | String c rest =>
      if Ascii.eqb c "010"%char
      then by_ ++ replace_newlines by_ rest
      else String c (replace_newlines by_ rest)
  end.

(** [`${n}`] for an array length. *)
Definition of_nat (n : nat) : string := NilEmpty.string_of_uint (Nat.to_uint n).

(** [`${x}`] for a value that may be [undefined]. *)
Definition template (x : option string) : string :=
  match x with
  | Some s => s
  | None => "undefined"
  end.

End Js.

(** ** Data model *)

(** [Repository], as far as the wizard reads it. *)
Record Repository := {
  repo_id : string;
  repo_path : string;
  formattedName : string
}.

(** [GitStashCommit]; [state.stash] keeps the picked commit and reads its
    [stashName], [message], [ref] and [repoPath]. *)
Record GitStashCommit := {
  stashName : string;
  stash_message : string;
  ref : string;
  repoPath : string;
  shortSha : string;
  number : option string;
  getShortMessage : string
}.

Definition Uri := string.

(** [type PushFlags = '--include-untracked' | '--keep-index'] *)
Inductive PushFlags := IncludeUntracked | KeepIndex.

Definition PushFlags_eqb (a b : PushFlags) : bool :=
  match a, b with
  | IncludeUntracked, IncludeUntracked | KeepIndex, KeepIndex => true
  | _, _ => false
  end.

(** [flags.includes(f)] *)
Definition flags_include (flags : list PushFlags) (f : PushFlags) : bool :=
  existsb (PushFlags_eqb f) flags.

(** [Partial<State>]: the union of the five state interfaces with every
    field optional.  [subcommand] is the string tag. *)
Record PartialState := {
  p_subcommand : option string;
  p_repo : option Repository;
  p_stash : option GitStashCommit;
  p_message : option string;
  p_uris : option (list Uri);
  p_flags : option (list PushFlags)
}.

(** [StepState<State> = Partial<State> & { counter: number; confirm?: boolean }] *)
Record State := {
  counter : Z;
  confirm_override : option bool;
  subcommand : option string;
  repo : option Repository;
  stash : option GitStashCommit;
  message : option string;
  uris : option (list Uri);
  flags : option (list PushFlags)
}.

(** [interface StashGitCommandArgs] *)
Record StashGitCommandArgs := {
  args_state : option PartialState;
  args_confirm : option bool
}.

Inductive Directive := Back | Cancel.

Inductive Button :=
| QuickInputButtons_Back
| RevealInView.

(** The quick pick items the wizard builds, one constructor per factory or
    object literal of the source. *)
Inductive Item :=
| DirectiveQuickPickItem (directive : Directive) (picked : bool)
| QuickPickItemOfT (label description : string) (picked : bool) (item : string)
| RepositoryQuickPickItem (r : Repository) (picked : bool)
| CommitQuickPickItem (c : GitStashCommit) (picked : bool)
| ConfirmCommandItem (label description detail : string) (command : option string)
| QuickPickItem (label description detail : string)
| FlagsQuickPickItem (flags item : list PushFlags)
    (label : string) (description : option string) (detail : string)
| CommandQuickPickItem (label : string)
| OtherQuickPickItem (label : string).

(** The object handed to [createPickStep]. The callbacks
    ([onDidClickButton], [onDidPressKey]) reveal a stash in another view and
    never resolve the step; they are left out. *)
Record QuickPickStep := {
  pick_title : string;
  pick_placeholder : string;
  pick_items : list Item;
  pick_buttons : list Button;
  pick_additionalButtons : list Button;
  pick_matchOnDetail : bool;
  pick_keys : list string
}.

(** The object handed to [createInputStep]. *)
Record QuickInputStep := {
  input_title : string;
  input_placeholder : string;
  input_value : option string
}.

(** The arguments of [createConfirmStep(title, confirmations, cancel, options)]. *)
Record ConfirmStep := {
  confirm_title : string;
  confirmations : list Item;
  confirm_cancel : option Item;
  confirm_placeholder : string;
  confirm_additionalButtons : list Button
}.

Inductive Step :=
| Pick (s : QuickPickStep)
| Input (s : QuickInputStep)
| Confirm (s : ConfirmStep).

(** What the presentation layer hands back for a step. *)
Inductive Selection :=
| SelDirective (d : Directive)
| SelItems (items : list Item)
| SelValue (value : string).

(** Modelled from the spec: the presentation layer (the caller of
    [QuickCommandBase.next], not among the sources) "returns exactly one
    of: a chosen item, a typed string, or a navigation directive"; choosing
    one of the sentinel items [Back] and [Cancel] is delivered as that
    directive. *)
Definition resolve (it : Item) : Selection :=
  match it with
  | DirectiveQuickPickItem d _ => SelDirective d
  | _ => SelItems [it]
  end.

(** ** Exceptions, collaborators and the log *)

Inductive Exn :=
| BreakQuickCommand
| Error (message : string).

(** A call the wizard awaits: it returns a value or raises. *)
Inductive Awaited (A : Type) :=
| Returns (a : A)
| Raises (message : string).
Arguments Returns {A} a.
Arguments Raises {A} message.

(** A call the wizard does not await ([void f(...)]): it raises at the call,
    or returns a promise that is fulfilled or rejected later.  A rejection
    of a promise nobody awaits is not raised in the generator. *)
Inductive Issued :=
| Fulfils
| Rejects (message : string)
| Throws (message : string).

(** The collaborators of the wizard: [Container.git], the configuration,
    the base class constants and the helpers of [system] and [constants]
    that are not among the sources are parameters of the model.  So are
    the three glyphs and the dash U+2014 of line 288, which are units
    above 255.  A collaborator answers the same call in the same way
    throughout a run. *)
Record Env := {
  getOrderedRepositories : Awaited (list Repository);
  getActiveRepository : Awaited (option Repository);
  getStashList : string -> Awaited (option (list GitStashCommit));
  stashApply : string -> string -> bool -> Issued;
  stashDelete : string -> string -> Issued;
  stashSave : string -> option string -> option (list Uri) -> bool -> bool -> Issued;
  getItems : GitStashCommit -> Awaited (list Item);
  execute : string -> Issued;
  skipConfirmations : list string;
  pickedVia : string;
  super_canSkipConfirm : bool;
  getFormattedPath : Uri -> string -> string;
  pad : string -> nat -> nat -> string;
  Dot : string;
  Dash : string;
  Ellipsis : string;
  Emdash : string
}.

Inductive Event :=
| Yielded (s : Step)
| StashApply (repoPath stashName : string) (deleteAfter : bool)
| StashDelete (repoPath stashName : string)
| StashSave (repoPath : string) (message : option string) (uris : option (list Uri))
    (includeUntracked keepIndex : bool)
| Execute (command : string)
| LoggerError (ex : Exn) (context : string)
| ShowWarningMessage (text : string)
| ShowInformationMessage (text : string)
| ShowErrorMessage (text : string)
| ShowGenericErrorMessage (text : string).

(** The terminal operations of the chains. *)
Definition terminal (e : Event) : bool :=
  match e with
  | StashApply _ _ _ | StashDelete _ _ | StashSave _ _ _ _ _ | Execute _ => true
  | _ => false
  end.

Definition is_yield (e : Event) : bool :=
  match e with
  | Yielded _ => true
  | _ => false
  end.

(** The messages shown to the user. *)
Definition is_report (e : Event) : bool :=
  match e with
  | ShowWarningMessage _ | ShowInformationMessage _
  | ShowErrorMessage _ | ShowGenericErrorMessage _ => true
  | _ => false
  end.

(** ** The world of one invocation *)

Record World := {
  state : State;                        (* the state object of [steps] *)
  _subcommand : option string;          (* [this._subcommand] *)
  repos : option (list Repository);     (* [let repos] of [steps] *)
  pickedStash : option GitStashCommit;  (* [let pickedStash] of [list] *)
  inputs : list Selection;              (* the answers still to come *)
  log : list Event                      (* what happened, newest first *)
}.

(** What happened, in the order it happened. *)
Definition history (w : World) : list Event := rev (log w).

Inductive Jump := JBreak | JContinue | JReturn.

(** Why a run stops without returning or raising. *)
Inductive Halt :=
| Suspended    (* a step is shown and no answer has come yet *)
| Cancelled    (* the step was answered with [Cancel] *)
| Malformed    (* the answer does not fit [StepSelection<typeof step>] *)
| OutOfFuel.

Inductive Result (A : Type) :=
| Ok (a : A) (w : World)
| Throw (ex : Exn) (w : World)
| Jumps (j : Jump) (w : World)
| Stop (h : Halt) (w : World).
Arguments Ok {A} a w.
Arguments Throw {A} ex w.
Arguments Jumps {A} j w.
Arguments Stop {A} h w.

Definition world_of {A} (r : Result A) : World :=
  match r with
  | Ok _ w | Throw _ w | Jumps _ w | Stop _ w => w
  end.

Definition M (A : Type) : Type := World -> Result A.

Definition ret {A} (a : A) : M A := fun w => Ok a w.

Definition bind {A B} (m : M A) (k : A -> M B) : M B :=
  fun w =>
    match m w with
    | Ok a w' => k a w'
    | Throw ex w' => Throw ex w'
    | Jumps j w' => Jumps j w'
    | Stop h w' => Stop h w'
    end.

Declare Scope wizard_scope.
Delimit Scope wizard_scope with wizard.
Notation "x <- m ;; k" := (bind m (fun x => k))
  (at level 61, m at next level, right associativity) : wizard_scope.
Notation "m ;; k" := (bind m (fun _ => k))
  (at level 61, right associativity) : wizard_scope.
Local Open Scope wizard_scope.

Definition throw {A} (ex : Exn) : M A := fun w => Throw ex w.
Definition break_ {A} : M A := fun w => Jumps JBreak w.
Definition continue_ {A} : M A := fun w => Jumps JContinue w.
Definition return_ {A} : M A := fun w => Jumps JReturn w.
Definition stop {A} (h : Halt) : M A := fun w => Stop h w.

Definition when (b : bool) (m : M unit) : M unit := if b then m else ret tt.

(** [try { body } catch (ex) { handler }] *)
Definition try_catch {A} (body : M A) (handler : Exn -> M A) : M A :=
  fun w =>
    match body w with
    | Throw ex w' => handler ex w'
    | r => r
    end.

(** [while (true) { body }].  An iteration that goes round again has
    consumed an answer, so one more round than there are answers is
    enough ([steps_total] below). *)
Fixpoint while_fuel (fuel : nat) (body : M unit) : M unit :=
  fun w =>
    match fuel with
    | O => Stop OutOfFuel w
    | S n =>
        match body w with
        | Ok _ w' | Jumps JContinue w' => while_fuel n body w'
        | Jumps JBreak w' => Ok tt w'
        | r => r
        end
    end.

Definition while_true (body : M unit) : M unit :=
  fun w => while_fuel (S (length (inputs w))) body w.

(** The body of a generator function: [return] ends it. *)
Definition function_ (body : M unit) : M unit :=
  fun w =>
    match body w with
    | Jumps JReturn w' => Ok tt w'
    | r => r
    end.

(** *** Reading and writing the world *)

Definition get_state : M State := fun w => Ok (state w) w.

Definition set_state (s : State) : M unit :=
  fun w => Ok tt {| state := s; _subcommand := _subcommand w; repos := repos w;
                    pickedStash := pickedStash w; inputs := inputs w; log := log w |}.

Definition get__subcommand : M (option string) := fun w => Ok (_subcommand w) w.

Definition set__subcommand (v : option string) : M unit :=
  fun w => Ok tt {| state := state w; _subcommand := v; repos := repos w;
                    pickedStash := pickedStash w; inputs := inputs w; log := log w |}.

Definition get_repos : M (option (list Repository)) := fun w => Ok (repos w) w.

Definition set_repos (v : option (list Repository)) : M unit :=
  fun w => Ok tt {| state := state w; _subcommand := _subcommand w; repos := v;
                    pickedStash := pickedStash w; inputs := inputs w; log := log w |}.

Definition get_pickedStash : M (option GitStashCommit) := fun w => Ok (pickedStash w) w.

Definition set_pickedStash (v : option GitStashCommit) : M unit :=
  fun w => Ok tt {| state := state w; _subcommand := _subcommand w; repos := repos w;
                    pickedStash := v; inputs := inputs w; log := log w |}.

Definition emit (e : Event) : M unit :=
  fun w => Ok tt {| state := state w; _subcommand := _subcommand w; repos := repos w;
                    pickedStash := pickedStash w; inputs := inputs w; log := e :: log w |}.

Definition with_counter (c : Z) (s : State) : State :=
  {| counter := c; confirm_override := confirm_override s; subcommand := subcommand s;
     repo := repo s; stash := stash s; message := message s; uris := uris s;
     flags := flags s |}.

Definition with_subcommand (v : option string) (s : State) : State :=
  {| counter := counter s; confirm_override := confirm_override s; subcommand := v;
     repo := repo s; stash := stash s; message := message s; uris := uris s;
     flags := flags s |}.

Definition with_repo (v : option Repository) (s : State) : State :=
  {| counter := counter s; confirm_override := confirm_override s; subcommand := subcommand s;
     repo := v; stash := stash s; message := message s; uris := uris s;
     flags := flags s |}.

Definition with_stash (v : option GitStashCommit) (s : State) : State :=
  {| counter := counter s; confirm_override := confirm_override s; subcommand := subcommand s;
     repo := repo s; stash := v; message := message s; uris := uris s;
     flags := flags s |}.

Definition with_message (v : option string) (s : State) : State :=
  {| counter := counter s; confirm_override := confirm_override s; subcommand := subcommand s;
     repo := repo s; stash := stash s; message := v; uris := uris s;
     flags := flags s |}.

Definition with_flags (v : option (list PushFlags)) (s : State) : State :=
  {| counter := counter s; confirm_override := confirm_override s; subcommand := subcommand s;
     repo := repo s; stash := stash s; message := message s; uris := uris s;
     flags := v |}.

Definition modify (f : State -> State) : M unit :=
  s <- get_state ;; set_state (f s).

(** [await f(...)] *)
Definition await {A} (r : Awaited A) : M A :=
  match r with
  | Returns a => ret a
  | Raises msg => throw (Error msg)
  end.

(** [void f(...)], and [command.execute()] whose value is dropped: the
    call is logged; only an exception raised at the call itself reaches the
    generator. *)
Definition issue (call : Event) (r : Issued) : M unit :=
  emit call ;;
  match r with
  | Throws msg => throw (Error msg)
  | Fulfils | Rejects _ => ret tt
  end.

(** Modelled from the spec: the presentation layer is missing.  An answer
    [Cancel] ("abort") "propagates upward to end the whole wizard with no
    result and no side effect": the generator is not resumed. *)
Definition aborts (answer : Selection) : bool :=
  match answer with
  | SelDirective Cancel => true
  | _ => false
  end.

(** [yield step]: the step goes to the presentation layer and the generator
    waits for the answer. *)
Definition yield_ (s : Step) : M Selection :=
  fun w =>
    let shown := {| state := state w; _subcommand := _subcommand w; repos := repos w;
                    pickedStash := pickedStash w; inputs := tl (inputs w);
                    log := Yielded s :: log w |} in
    match inputs w with
    | [] => Stop Suspended shown
    | answer :: _ => if aborts answer then Stop Cancelled shown else Ok answer shown
    end.

(** ** The base class

    [QuickCommandBase] ([src/commands/quickCommand.ts]) is not among the
    sources; what the stash wizard uses of it is modelled here. *)

Module QuickCommandBase.

(** [super('stash', 'stash', 'Stash', ...)] *)
Definition key : string := "stash".
Definition label : string := "stash".
Definition title : string := "Stash".

(** Modelled from the spec: [createPickStep], [createInputStep] and
    [createConfirmStep] are missing.  A step descriptor is "inert data
    describing one interaction point": each keeps the object, or the
    arguments, it is given. *)
Definition createPickStep (s : QuickPickStep) : Step := Pick s.
Definition createInputStep (s : QuickInputStep) : Step := Input s.
Definition createConfirmStep (s : ConfirmStep) : Step := Confirm s.

(** Modelled from the spec: [QuickCommandBase.canPickStepMoveNext] is
    missing.  "back re-enters the previous step (...), relying on the
    unmet set-AND-counter-advanced condition to re-ask" and "counter:
    integer >= 0; (...) only increases going forward": going back lowers
    the counter by one, not below zero, and the step does not move on; a
    chosen item raises the counter by one and the step moves on. *)
Definition canPickStepMoveNext (step : Step) (selection : Selection) : M bool :=
  match selection with
  | SelDirective Back =>
      modify (fun s => with_counter (Z.max 0 (counter s - 1)) s) ;; ret false
  | SelDirective Cancel => stop Cancelled
  | SelItems _ =>
      modify (fun s => with_counter (counter s + 1) s) ;; ret true
  | SelValue _ => stop Malformed
  end.

(** Modelled from the spec: [QuickCommandBase.canInputStepMoveNext] is
    missing; as [canPickStepMoveNext], for a typed string. *)
Definition canInputStepMoveNext (step : Step) (value : Selection) : M bool :=
  match value with
  | SelDirective Back =>
      modify (fun s => with_counter (Z.max 0 (counter s - 1)) s) ;; ret false
  | SelDirective Cancel => stop Cancelled
  | SelValue _ =>
      modify (fun s => with_counter (counter s + 1) s) ;; ret true
  | SelItems _ => stop Malformed
  end.

(** Modelled from the spec: [QuickCommandBase.confirm] is missing.
    "confirmation can be statically skipped per user preference yet some
    operations must never be skippable" and "confirmOverride: optional
    boolean forcing confirmation on/off for this invocation regardless of
    the user's remembered preference": a command that cannot confirm or
    cannot skip always confirms; otherwise the override decides, and
    without one the remembered list of skipped confirmations. *)
Definition confirm (canConfirm canSkipConfirm : bool) (skipConfirmKey : string)
    (skipConfirmations : list string) (override : option bool) : bool :=
  if negb canConfirm || negb canSkipConfirm then true
  else match override with
       | Some b => b
       | None => negb (existsb (String.eqb skipConfirmKey) skipConfirmations)
       end.

End QuickCommandBase.

(** ** [StashGitCommand] *)

Definition is_undefined {A} (x : option A) : bool :=
  match x with
  | None => true
  | Some _ => false
  end.

Definition subcommandToSubtitleMap : list (string * string) :=
  [("apply", "Apply"); ("drop", "Drop"); ("list", "List"); ("pop", "Pop"); ("push", "Push")].

(** [Map.get] *)
Fixpoint Map_get (m : list (string * string)) (k : string) : option string :=
  match m with
  | [] => None
  | (k', v) :: rest => if String.eqb k k' then Some v else Map_get rest k
  end.

Definition getSubtitle (subcommand : option string) : option string :=
  match subcommand with
  | None => Some ""
  | Some s => Map_get subcommandToSubtitleMap s
  end.

(** [x === 'tag'] for a possibly undefined string. *)
Definition is_tag (x : option string) (tag : string) : bool :=
  match x with
  | Some s => String.eqb s tag
  | None => false
  end.

Module StashGitCommand.

Import QuickCommandBase.

(** Lines 96-134. [None] is [_initialState] left undefined. *)
Definition constructor (args : option StashGitCommandArgs) : option State :=
  match args with
  | None => None
  | Some a =>
      match args_state a with
      | None => None
      | Some s =>
          let counter0 := 0 in
          let counter1 :=
            if is_undefined (p_subcommand s) then counter0 else counter0 + 1 in
          let counter2 :=
            if is_undefined (p_repo s) then counter1 else counter1 + 1 in
          let counter3 :=
            if is_tag (p_subcommand s) "apply" || is_tag (p_subcommand s) "drop"
               || is_tag (p_subcommand s) "pop"
            then if is_undefined (p_stash s) then counter2 else counter2 + 1
            else if is_tag (p_subcommand s) "push"
            then if is_undefined (p_message s) then counter2 else counter2 + 1
            else counter2 in
          Some {| counter := counter3;
                  confirm_override := args_confirm a;
                  subcommand := p_subcommand s;
                  repo := p_repo s;
                  stash := p_stash s;
                  message := p_message s;
                  uris := p_uris s;
                  flags := p_flags s |}
      end
  end.

(** Line 149: [this._initialState === undefined ? { counter: 0 } : this._initialState] *)
Definition initial_state (initialState : option State) : State :=
  match initialState with
  | None => {| counter := 0; confirm_override := None; subcommand := None;
               repo := None; stash := None; message := None; uris := None;
               flags := None |}
  | Some s => s
  end.

(** The answer to a pick step is an array of items; [selection[0]].  The
    presentation layer answers with at least one item; an answer without
    one, where the code goes on with [undefined], is outside the model and
    halts the run as [Malformed]. *)
Definition first_item (selection : Selection) : M Item :=
  match selection with
  | SelItems (it :: _) => ret it
  | _ => stop Malformed
  end.

(** [selection[0].item] of the subcommand step. *)
Definition selected_subcommand (selection : Selection) : M string :=
  it <- first_item selection ;;
  match it with
  | QuickPickItemOfT _ _ _ v => ret v
  | _ => stop Malformed
  end.

(** [selection[0].item] of the repository step. *)
Definition selected_repository (selection : Selection) : M Repository :=
  it <- first_item selection ;;
  match it with
  | RepositoryQuickPickItem r _ => ret r
  | _ => stop Malformed
  end.

(** [selection[0].item] of a stash step. *)
Definition selected_commit (selection : Selection) : M GitStashCommit :=
  it <- first_item selection ;;
  match it with
  | CommitQuickPickItem c _ => ret c
  | _ => stop Malformed
  end.

(** [selection[0].command] of the apply/pop confirmation. *)
Definition selected_command (selection : Selection) : M (option string) :=
  it <- first_item selection ;;
  match it with
  | ConfirmCommandItem _ _ _ c => ret c
  | _ => stop Malformed
  end.

(** [selection[0].item] of the push confirmation. *)
Definition selected_flags (selection : Selection) : M (list PushFlags) :=
  it <- first_item selection ;;
  match it with
  | FlagsQuickPickItem _ item _ _ _ => ret item
  | _ => stop Malformed
  end.

(** The string answered to an input step. *)
Definition typed_value (value : Selection) : M string :=
  match value with
  | SelValue v => ret v
  | _ => stop Malformed
  end.

(** [state.repo] of a [StashStepState], which has a repository. *)
Definition the_repo : M Repository :=
  st <- get_state ;;
  match repo st with
  | Some r => ret r
  | None => stop Malformed
  end.

(** [state.stash] once the stash step is behind. *)
Definition the_stash : M GitStashCommit :=
  st <- get_state ;;
  match stash st with
  | Some s => ret s
  | None => stop Malformed
  end.

(** [state.flags] once [push] has filled it in. *)
Definition the_flags : M (list PushFlags) :=
  st <- get_state ;;
  match flags st with
  | Some f => ret f
  | None => stop Malformed
  end.

Section WithEnv.

Variable E : Env.

(** Lines 136-138. *)
Definition canConfirm (this_subcommand : option string) : bool :=
  negb (is_undefined this_subcommand) && negb (is_tag this_subcommand "list").

(** Lines 140-142. *)
Definition canSkipConfirm (this_subcommand : option string) : bool :=
  if is_tag this_subcommand "drop" then false else super_canSkipConfirm E.

(** Lines 144-146. *)
Definition skipConfirmKey (this_subcommand : option string) : string :=
  key ++ match this_subcommand with
         | None => ""
         | Some s => "-" ++ s
         end ++ ":" ++ pickedVia E.

(** [this.confirm(state.confirm)] *)
Definition confirm_ : M bool :=
  st <- get_state ;;
  this_subcommand <- get__subcommand ;;
  ret (confirm (canConfirm this_subcommand) (canSkipConfirm this_subcommand)
         (skipConfirmKey this_subcommand) (skipConfirmations E) (confirm_override st)).

(** [`${this.title} ${getSubtitle(state.subcommand)}`] *)
Definition title_subtitle (st : State) : string :=
  title ++ " " ++ Js.template (getSubtitle (subcommand st)).

(** [`${this.title} ${getSubtitle(state.subcommand)}${Strings.pad(GlyphChars.Dot, 2, 2)}${state.repo.formattedName}`] *)
Definition title_dot_repo (st : State) (r : Repository) : string :=
  title_subtitle st ++ pad E (Dot E) 2 2 ++ formattedName r.

(** The two sentinel items of an empty stash list. *)
Definition directives : list Item :=
  [DirectiveQuickPickItem Back true; DirectiveQuickPickItem Cancel false].

(** Lines 322-366 and 451-493: the stash step of [applyOrPop] and [drop]. *)
Definition stash_step (st : State) (r : Repository)
    (listing : option (list GitStashCommit)) (choose : string) : Step :=
  createPickStep
    {| pick_title := title_dot_repo st r;
       pick_placeholder :=
         match listing with
         | None => formattedName r ++ " has no stashes"
         | Some _ => choose
         end;
       pick_matchOnDetail := true;
       pick_items :=
         match listing with
         | None => directives
         | Some commits =>
             map (fun c =>
                    CommitQuickPickItem c
                      (match stash st with
                       | Some s => String.eqb (stashName c) (stashName s)
                       | None => false
                       end))
                 commits
         end;
       pick_buttons := [];
       pick_additionalButtons := [RevealInView];
       pick_keys := [] |}.

(** Lines 377-380 and 503-506. *)
Definition shown_message (s : GitStashCommit) : string :=
  if (80 <? String.length (stash_message s))%nat
  then substring 0 80 (stash_message s) ++ Ellipsis E
  else stash_message s.

(** Lines 382-428. *)
Definition applyOrPop_confirm_step (st : State) (r : Repository) (s : GitStashCommit) : Step :=
  let message := shown_message s in
  let will_pop :=
    "Will delete " ++ stashName s ++ " and apply the changes to the working tree of "
    ++ formattedName r in
  let will_apply :=
    "Will apply the changes from " ++ stashName s ++ " to the working tree of "
    ++ formattedName r in
  createConfirmStep
    {| confirm_title := "Confirm " ++ title_dot_repo st r;
       confirmations :=
         [ ConfirmCommandItem
             (title_subtitle st)
             (stashName s ++ pad E (Dash E) 2 2 ++ message)
             (if is_tag (subcommand st) "pop" then will_pop else will_apply)
             (subcommand st);
           ConfirmCommandItem
             (title ++ " " ++ (if is_tag (subcommand st) "pop" then "Apply" else "Pop"))
             (stashName s ++ pad E (Dash E) 2 2 ++ message)
             (if is_tag (subcommand st) "pop" then will_apply else will_pop)
             (Some (if is_tag (subcommand st) "pop" then "apply" else "pop")) ];
       confirm_cancel := None;
       confirm_placeholder := "Confirm " ++ title_subtitle st;
       confirm_additionalButtons := [RevealInView] |}.

(** The body of [while (true)] in [applyOrPop]. *)
Definition applyOrPop_body : M unit :=
  st <- get_state ;;
  when (is_undefined (stash st) || (counter st <? 3)%Z) (
    r <- the_repo ;;
    listing <- await (getStashList E (repo_path r)) ;;
    let step := stash_step st r listing "Choose a stash to apply to your working tree" in
    selection <- yield_ step ;;
    ok <- canPickStepMoveNext step selection ;;
    if negb ok then break_ else
    c <- selected_commit selection ;;
    modify (with_stash (Some c))) ;;
  ask <- confirm_ ;;
  when ask (
    st <- get_state ;;
    r <- the_repo ;;
    s <- the_stash ;;
    let step := applyOrPop_confirm_step st r s in
    selection <- yield_ step ;;
    ok <- canPickStepMoveNext step selection ;;
    if negb ok then break_ else
    c <- selected_command selection ;;
    modify (with_subcommand c)) ;;
  st <- get_state ;;
  r <- the_repo ;;
  s <- the_stash ;;
  issue (StashApply (repo_path r) (stashName s) (is_tag (subcommand st) "pop"))
       (stashApply E (repo_path r) (stashName s) (is_tag (subcommand st) "pop")) ;;
  throw BreakQuickCommand.

(** Lines 317-444. *)
Definition applyOrPop : M unit :=
  function_ (
    while_true applyOrPop_body ;;
    return_).

(** Lines 508-532. *)
Definition drop_confirm_step (st : State) (r : Repository) (s : GitStashCommit) : Step :=
  let message := shown_message s in
  createConfirmStep
    {| confirm_title := "Confirm " ++ title_dot_repo st r;
       confirmations :=
         [ QuickPickItem
             (title_subtitle st)
             (stashName s ++ pad E (Dash E) 2 2 ++ message)
             ("Will delete " ++ stashName s) ];
       confirm_cancel := None;
       confirm_placeholder := "Confirm " ++ title_subtitle st;
       confirm_additionalButtons := [RevealInView] |}.

(** The body of [while (true)] in [drop]. *)
Definition drop_body : M unit :=
  st <- get_state ;;
  when (is_undefined (stash st) || (counter st <? 3)%Z) (
    r <- the_repo ;;
    listing <- await (getStashList E (repo_path r)) ;;
    let step := stash_step st r listing "Choose a stash to delete" in
    selection <- yield_ step ;;
    ok <- canPickStepMoveNext step selection ;;
    if negb ok then break_ else
    c <- selected_commit selection ;;
    modify (with_stash (Some c))) ;;
  st <- get_state ;;
  r <- the_repo ;;
  s <- the_stash ;;
  let step := drop_confirm_step st r s in
  selection <- yield_ step ;;
  ok <- canPickStepMoveNext step selection ;;
  if negb ok then break_ else
  issue (StashDelete (repo_path r) (stashName s))
       (stashDelete E (repo_path r) (stashName s)) ;;
  throw BreakQuickCommand.

(** Lines 446-545. *)
Definition drop : M unit :=
  function_ (
    while_true drop_body ;;
    return_).

(** Lines 553-601: the stash step of [list]. *)
Definition list_step (st : State) (r : Repository)
    (listing : option (Datatypes.list GitStashCommit))
    (picked : option GitStashCommit) : Step :=
  createPickStep
    {| pick_title := title_dot_repo st r;
       pick_placeholder :=
         match listing with
         | None => formattedName r ++ " has no stashes"
         | Some _ => "Choose a stash"
         end;
       pick_matchOnDetail := true;
       pick_items :=
         match listing with
         | None => directives
         | Some commits =>
             map (fun c =>
                    CommitQuickPickItem c
                      (match picked with
                       | Some s => String.eqb (ref c) (ref s)
                       | None => false
                       end))
                 commits
         end;
       pick_buttons := [];
       pick_additionalButtons := [RevealInView];
       pick_keys := ["right"; "alt+right"; "ctrl+right"] |}.

(** Lines 611-628: the menu of actions on the picked stash. *)
Definition list_actions_step (st : State) (r : Repository)
    (picked : GitStashCommit) (items : Datatypes.list Item) : Step :=
  createPickStep
    {| pick_title := title_dot_repo st r ++ pad E (Dot E) 2 2 ++ shortSha picked;
       pick_placeholder :=
         match number picked with
         | None => ""
         | Some n => n ++ ": "
         end ++ getShortMessage picked;
       pick_matchOnDetail := false;
       pick_items := items;
       pick_buttons := [];
       pick_additionalButtons := [RevealInView];
       pick_keys := [] |}.

(** The body of [while (true)] in [list]. *)
Definition list_body : M unit :=
  st <- get_state ;;
  r <- the_repo ;;
  listing <- await (getStashList E (repo_path r)) ;;
  picked <- get_pickedStash ;;
  let step := list_step st r listing picked in
  selection <- yield_ step ;;
  ok <- canPickStepMoveNext step selection ;;
  if negb ok then break_ else
  c <- selected_commit selection ;;
  set_pickedStash (Some c) ;;
  picked <- get_pickedStash ;;
  match picked with
  | None => ret tt
  | Some p =>
      items <- await (getItems E p) ;;
      let step := list_actions_step st r p items in
      selection <- yield_ step ;;
      ok <- canPickStepMoveNext step selection ;;
      if negb ok then continue_ else
      command <- first_item selection ;;
      match command with
      | CommandQuickPickItem c =>
          issue (Execute c) (execute E c) ;;
          throw BreakQuickCommand
      | _ => ret tt
      end
  end.

(** Lines 547-645. *)
Definition list : M unit :=
  function_ (
    set_pickedStash None ;;
    while_true list_body ;;
    return_).

(** [`Will stash changes in ${...}`], lines 699-703 and 708-712. *)
Definition scoped_files (r : Repository) (us : Datatypes.list Uri) : string :=
  match us with
  | [u] => getFormattedPath E u (repo_path r)
  | _ => Js.of_nat (length us) ++ " files"
  end.

(** Lines 673-717. *)
Definition push_confirm_step (st : State) (r : Repository)
    (fl : Datatypes.list PushFlags) : Step :=
  createConfirmStep
    {| confirm_title := "Confirm " ++ title_dot_repo st r;
       confirmations :=
         match uris st with
         | None | Some [] =>
             [ FlagsQuickPickItem fl []
                 (title_subtitle st)
                 (message st)
                 "Will stash uncommitted changes";
               FlagsQuickPickItem fl [IncludeUntracked]
                 (title_subtitle st ++ " & Include Untracked")
                 (Some ("--include-untracked " ++ Js.template (message st)))
                 "Will stash uncommitted changes, including untracked files";
               FlagsQuickPickItem fl [KeepIndex]
                 (title_subtitle st ++ " & Keep Staged")
                 (Some ("--keep-index " ++ Js.template (message st)))
                 "Will stash uncommitted changes, but will keep staged files intact" ]
         | Some us =>
             [ FlagsQuickPickItem fl []
                 (title_subtitle st)
                 (message st)
                 ("Will stash changes in " ++ scoped_files r us);
               FlagsQuickPickItem fl [KeepIndex]
                 (title_subtitle st ++ " & Keep Staged")
                 (Some ("--keep-index " ++ Js.template (message st)))
                 ("Will stash changes in " ++ scoped_files r us
                  ++ ", but will keep staged files intact") ]
         end;
       confirm_cancel := None;
       confirm_placeholder := "Confirm " ++ title_subtitle st;
       confirm_additionalButtons := [] |}.

(** Lines 655-661. *)
Definition push_message_step (st : State) (r : Repository) : Step :=
  createInputStep
    {| input_title := title_dot_repo st r;
       input_placeholder := "Please provide a stash message";
       input_value := message st |}.

(** The body of [while (true)] in [push]. *)
Definition push_body : M unit :=
  st <- get_state ;;
  when (is_undefined (message st) || (counter st <? 3)%Z) (
    r <- the_repo ;;
    let step := push_message_step st r in
    value <- yield_ step ;;
    ok <- canInputStepMoveNext step value ;;
    if negb ok then break_ else
    v <- typed_value value ;;
    modify (with_message (Some v))) ;;
  ask <- confirm_ ;;
  when ask (
    st <- get_state ;;
    r <- the_repo ;;
    fl <- the_flags ;;
    let step := push_confirm_step st r fl in
    selection <- yield_ step ;;
    ok <- canPickStepMoveNext step selection ;;
    if negb ok then break_ else
    f <- selected_flags selection ;;
    modify (with_flags (Some f))) ;;
  st <- get_state ;;
  r <- the_repo ;;
  fl <- the_flags ;;
  issue (StashSave (repo_path r) (message st) (uris st)
          (flags_include fl IncludeUntracked) (flags_include fl KeepIndex))
       (stashSave E (repo_path r) (message st) (uris st)
          (flags_include fl IncludeUntracked) (flags_include fl KeepIndex)) ;;
  throw BreakQuickCommand.

(** Lines 648-736. *)
Definition push : M unit :=
  function_ (
    st <- get_state ;;
    when (is_undefined (flags st)) (modify (with_flags (Some []))) ;;
    while_true push_body ;;
    return_).

(** Lines 157-195. *)
Definition subcommand_step (st : State) : Step :=
  createPickStep
    {| pick_title := title;
       pick_placeholder := "Choose a " ++ label ++ " command";
       pick_items :=
         [ QuickPickItemOfT "apply"
             "integrates changes from the specified stash into the current branch"
             (is_tag (subcommand st) "apply") "apply";
           QuickPickItemOfT "drop"
             "deletes the specified stash"
             (is_tag (subcommand st) "drop") "drop";
           QuickPickItemOfT "list"
             "lists the saved stashes"
             (is_tag (subcommand st) "list") "list";
           QuickPickItemOfT "pop"
             "integrates changes from the specified stash into the current branch and deletes the stash"
             (is_tag (subcommand st) "pop") "pop";
           QuickPickItemOfT "push"
             "saves your local changes to a new stash and discards them from the working tree and index"
             (is_tag (subcommand st) "push") "push" ];
       pick_buttons := [QuickInputButtons_Back];
       pick_additionalButtons := [];
       pick_matchOnDetail := false;
       pick_keys := [] |}.

(** Lines 218-230. *)
Definition repository_step (st : State) (rs : Datatypes.list Repository)
    (active : option Repository) : Step :=
  createPickStep
    {| pick_title := title_subtitle st;
       pick_placeholder := "Choose a repository";
       pick_items :=
         map (fun r =>
                RepositoryQuickPickItem r
                  (match active with
                   | Some a => String.eqb (repo_id r) (repo_id a)
                   | None => false
                   end))
             rs;
       pick_buttons := [];
       pick_additionalButtons := [];
       pick_matchOnDetail := false;
       pick_keys := [] |}.

(** Lines 154-203. *)
Definition choose_subcommand : M unit :=
  st <- get_state ;;
  when (is_undefined (subcommand st) || (counter st <? 1)%Z) (
    set__subcommand None ;;
    let step := subcommand_step st in
    selection <- yield_ step ;;
    ok <- canPickStepMoveNext step selection ;;
    if negb ok then break_ else
    v <- selected_subcommand selection ;;
    modify (with_subcommand (Some v))).

(** Lines 207-209. *)
Definition ordered_repositories : M (Datatypes.list Repository) :=
  known <- get_repos ;;
  match known with
  | Some rs => ret rs
  | None =>
      rs <- await (getOrderedRepositories E) ;;
      set_repos (Some rs) ;;
      ret rs
  end.

(** Lines 211-239. *)
Definition choose_repository (rs : Datatypes.list Repository) : M unit :=
  st <- get_state ;;
  when (is_undefined (repo st) || (counter st <? 2)%Z) (
    if (length rs =? 1)%nat then
      modify (fun s => with_counter (counter s + 1) s) ;;
      modify (with_repo (nth_error rs 0))
    else
      active <- match repo st with
                | Some r => ret (Some r)
                | None => await (getActiveRepository E)
                end ;;
      let step := repository_step st rs active in
      selection <- yield_ step ;;
      ok <- canPickStepMoveNext step selection ;;
      if negb ok then continue_ else
      r <- selected_repository selection ;;
      modify (with_repo (Some r))).

(** Lines 241-257. *)
Definition dispatch : M unit :=
  st <- get_state ;;
  if is_tag (subcommand st) "apply" || is_tag (subcommand st) "pop" then applyOrPop
  else if is_tag (subcommand st) "drop" then drop
  else if is_tag (subcommand st) "list" then list
  else if is_tag (subcommand st) "push" then push
  else return_.

(** Lines 259-262. *)
Definition step_back_over_repository (rs : Datatypes.list Repository) : M unit :=
  when (length rs =? 1)%nat (modify (fun s => with_counter (counter s - 1) s)) ;;
  continue_.

(** Lines 154-262: the body of [try]. *)
Definition steps_try : M unit :=
  choose_subcommand ;;
  st <- get_state ;;
  set__subcommand (subcommand st) ;;
  rs <- ordered_repositories ;;
  choose_repository rs ;;
  dispatch ;;
  step_back_over_repository rs.

(** Lines 268-310: the classification of the handler. *)
Definition classify (st : State) (ex : Exn) (message : string) : M unit :=
  if is_tag (subcommand st) "apply" || is_tag (subcommand st) "pop" then
    if Js.includes message
         "Your local changes to the following files would be overwritten by merge"
    then
      emit (ShowWarningMessage
              "Unable to apply stash. Your working tree changes would be overwritten") ;;
      return_
    else if Js.includes message "Auto-merging" && Js.includes message "CONFLICT" then
      emit (ShowInformationMessage "Stash applied with conflicts") ;;
      return_
    else
      emit (ShowGenericErrorMessage
              ("Unable to apply stash " ++ Emdash E ++ " "
               ++ Js.replace_newlines "; " (Js.trim message))) ;;
      return_
  else if is_tag (subcommand st) "drop" then
    emit (ShowGenericErrorMessage "Unable to delete stash") ;;
    return_
  else if is_tag (subcommand st) "push" then
    if Js.includes message "newer version of Git" then
      emit (ShowErrorMessage ("Unable to stash changes. " ++ message)) ;;
      return_
    else
      emit (ShowGenericErrorMessage "Unable to stash changes") ;;
      return_
  else throw ex.

(** Lines 263-311: [catch (ex)]. *)
Definition steps_catch (ex : Exn) : M unit :=
  match ex with
  | BreakQuickCommand => break_
  | Error message =>
      st <- get_state ;;
      emit (LoggerError ex (title ++ "." ++ Js.template (subcommand st))) ;;
      classify st ex message
  end.

(** Lines 148-315. *)
Definition steps : M unit :=
  function_ (
    while_true (try_catch steps_try steps_catch) ;;
    return_).

End WithEnv.

(** The world in which [steps] starts: the state of line 149, [repos]
    not yet fetched, nothing logged. *)
Definition start (initialState : option State) (answers : Datatypes.list Selection) : World :=
  {| state := initial_state initialState;
     _subcommand := None;
     repos := None;
     pickedStash := None;
     inputs := answers;
     log := [] |}.

(** One invocation of the wizard: the command is built from [args] and
    its steps are run against the answers of the presentation layer. *)
Definition run (E : Env) (args : option StashGitCommandArgs)
    (answers : Datatypes.list Selection) : Result unit :=
  steps E (start (constructor args) answers).


End StashGitCommand.

(** * What a run may log *)

Import QuickCommandBase StashGitCommand.

(** [list] is the chain [StashGitCommand.list] from here on; the type of
    lists keeps its name. *)
Local Abbreviation list := Datatypes.list (only parsing).

Local Open Scope list_scope.

(** The promise or exception a terminal call of the log stands for. *)
Definition outcome_of (E : Env) (call : Event) : Issued :=
  match call with
  | StashApply p n b => stashApply E p n b
  | StashDelete p n => stashDelete E p n
  | StashSave p m u i k => stashSave E p m u i k
  | Execute c => execute E c
  | _ => Fulfils
  end.

(** What a chain raises once it has made its terminal call. *)
Definition raised_by (o : Issued) : Exn :=
  match o with
  | Throws msg => Error msg
  | Fulfils | Rejects _ => BreakQuickCommand
  end.

(** [l] is [base] with steps yielded on top, and nothing else. *)
Inductive quiet_over (base : list Event) : list Event -> Prop :=
| quiet_base : quiet_over base base
| quiet_yield s l : quiet_over base l -> quiet_over base (Yielded s :: l).

(** A deletion is issued right after its confirmation step was answered. *)
Inductive confirmed (E : Env) : Event -> list Event -> Prop :=
| confirmed_delete st r s l :
    confirmed E (StashDelete (repo_path r) (stashName s))
      (Yielded (drop_confirm_step E st r s) :: l)
| confirmed_apply p n b l : confirmed E (StashApply p n b) l
| confirmed_save p m u i k l : confirmed E (StashSave p m u i k) l
| confirmed_execute c l : confirmed E (Execute c) l.

(** The result of a piece of the wizard started in [w].  With [strict] the
    piece is a chain or the body of its loop: it returns only after an
    answer was consumed, and never by [return]. *)
Inductive post {A : Type} (E : Env) (strict : bool) (w : World) : Result A -> Prop :=
| post_ok a w' :
    quiet_over (log w) (log w') ->
    (length (inputs w') + (if strict then 1 else 0) <= length (inputs w))%nat ->
    post E strict w (Ok a w')
| post_continue w' :
    quiet_over (log w) (log w') ->
    (length (inputs w') < length (inputs w))%nat ->
    post E strict w (Jumps JContinue w')
| post_break w' :
    quiet_over (log w) (log w') ->
    (length (inputs w') < length (inputs w))%nat ->
    post E strict w (Jumps JBreak w')
| post_return w' :
    strict = false ->
    quiet_over (log w) (log w') ->
    post E strict w (Jumps JReturn w')
| post_stop h w' :
    h <> OutOfFuel ->
    quiet_over (log w) (log w') ->
    post E strict w (Stop h w')
| post_error msg w' :
    quiet_over (log w) (log w') ->
    post E strict w (Throw (Error msg) w')
| post_fired call l ex w' :
    log w' = call :: l ->
    quiet_over (log w) l ->
    terminal call = true ->
    confirmed E call l ->
    ex = raised_by (outcome_of E call) ->
    post E strict w (Throw ex w').

(** The log when the handler of [steps] receives an [Error]: steps only
    (an awaited call raised), or steps and a terminal call that raised. *)
Inductive failure (E : Env) (base : list Event) : list Event -> Prop :=
| failure_awaited l :
    quiet_over base l ->
    failure E base l
| failure_call call l msg :
    quiet_over base l ->
    terminal call = true ->
    confirmed E call l ->
    outcome_of E call = Throws msg ->
    failure E base (call :: l).

(** How [steps], started with the log [base], ends. *)
Inductive ended (E : Env) (base : list Event) : Result unit -> Prop :=
| ended_quiet w' :
    quiet_over base (log w') ->
    ended E base (Ok tt w')
| ended_stop h w' :
    h <> OutOfFuel ->
    quiet_over base (log w') ->
    ended E base (Stop h w')
| ended_break call l w' :
    log w' = call :: l ->
    quiet_over base l ->
    terminal call = true ->
    confirmed E call l ->
    (forall msg, outcome_of E call <> Throws msg) ->
    ended E base (Ok tt w')
| ended_reported report msg context l w' :
    log w' = report :: LoggerError (Error msg) context :: l ->
    is_report report = true ->
    failure E base l ->
    ended E base (Ok tt w')
| ended_rethrown msg context l w' :
    log w' = LoggerError (Error msg) context :: l ->
    failure E base l ->
    ended E base (Throw (Error msg) w').

(** What the loop of [steps] and then [steps] make of the result of a round. *)
Definition finish (r : Result unit) : Result unit :=
  match r with
  | Ok _ w | Jumps _ w => Ok tt w
  | r => r
  end.

(** The tags for which the handler of [steps] has a case (lines 269, 270,
    293 and 298). *)
Definition classified (tag : option string) : bool :=
  is_tag tag "apply" || is_tag tag "pop" || is_tag tag "drop" || is_tag tag "push".

(** The items a step offers. *)
Definition menu (s : Step) : list Item :=
  match s with
  | Pick p => pick_items p
  | Input _ => []
  | Confirm c => confirmations c
  end.

(** The verb an item of the apply/pop confirmation stands for. *)
Definition command_of (it : Item) : option string :=
  match it with
  | ConfirmCommandItem _ _ _ c => c
  | _ => None
  end.

Definition label_of (it : Item) : string :=
  match it with
  | QuickPickItemOfT l _ _ _ | ConfirmCommandItem l _ _ _ | QuickPickItem l _ _
  | FlagsQuickPickItem _ _ l _ _ | CommandQuickPickItem l | OtherQuickPickItem l => l
  | DirectiveQuickPickItem _ _ | RepositoryQuickPickItem _ _ | CommitQuickPickItem _ _ => ""
  end.

(** [this.confirm(state.confirm)] in the world [w]. *)
Definition asks_to_confirm (E : Env) (w : World) : bool :=
  confirm (canConfirm (_subcommand w)) (canSkipConfirm E (_subcommand w))
    (skipConfirmKey E (_subcommand w)) (skipConfirmations E)
    (confirm_override (state w)).

(** The description an item shows next to its label. *)
Definition description_of (it : Item) : option string :=
  match it with
  | QuickPickItemOfT _ d _ _ | ConfirmCommandItem _ d _ _ | QuickPickItem _ d _ => Some d
  | FlagsQuickPickItem _ _ _ d _ => d
  | _ => None
  end.

(** ** The initial counter, in the words of the spec *)

Definition populated {A} (x : option A) : bool := negb (is_undefined x).

(** Whether the third field in step order is populated: the stash for
    [apply], [drop] and [pop], the message for [push]. *)
Definition third_populated (s : PartialState) : bool :=
  if is_tag (p_subcommand s) "apply" || is_tag (p_subcommand s) "drop"
     || is_tag (p_subcommand s) "pop"
  then populated (p_stash s)
  else if is_tag (p_subcommand s) "push" then populated (p_message s)
  else false.

(** "the number of leading fields of that partial state that are populated,
    in step order (subcommand, then repo, then the subcommand-specific stash
    or message)" *)
Definition leading_populated (s : PartialState) : Z :=
  if populated (p_subcommand s) then
    if populated (p_repo s) then
      if third_populated s then 3 else 2
    else 1
  else 0.

(** The populated fields form a prefix of the step order. *)
Definition populated_in_order (s : PartialState) : bool :=
  implb (populated (p_repo s)) (populated (p_subcommand s))
  && implb (third_populated s) (populated (p_repo s)).

(** The description of the item at some place of a menu, if there is one. *)
Definition description_of_default (it : option Item) : string :=
  match it with
  | Some i =>
      match description_of i with
      | Some d => d
      | None => ""
      end
  | None => ""
  end.

(** The detail line of an item. *)
Definition detail_of (it : Item) : string :=
  match it with
  | ConfirmCommandItem _ _ d _ | QuickPickItem _ _ d | FlagsQuickPickItem _ _ _ _ d => d
  | _ => ""
  end.

(** The flags an item of the push confirmation stands for. *)
Definition flags_of (it : Item) : list PushFlags :=
  match it with
  | FlagsQuickPickItem _ item _ _ _ => item
  | _ => []
  end.

(** ** What a piece of the wizard may add to the log *)

(** [l] is [base] with steps yielded and calls of kind [K] on top. *)
Inductive grown (K : Event -> bool) (base : list Event) : list Event -> Prop :=
| grown_base : grown K base base
| grown_yield s l : grown K base l -> grown K base (Yielded s :: l)
| grown_call e l : K e = true -> grown K base l -> grown K base (e :: l).

(** The terminal operation that belongs to a subcommand tag. *)
Definition operation_of (tag : option string) (e : Event) : bool :=
  match e with
  | StashApply _ _ _ => is_tag tag "apply" || is_tag tag "pop"
  | StashDelete _ _ => is_tag tag "drop"
  | Execute _ => is_tag tag "list"
  | StashSave _ _ _ _ _ => is_tag tag "push"
  | _ => false
  end.



(** The tag an item of the subcommand step stands for, and whether an item
    is marked as the current choice. *)
Definition tag_of (it : Item) : option string :=
  match it with
  | QuickPickItemOfT _ _ _ v => Some v
  | _ => None
  end.

Definition picked_of (it : Item) : bool :=
  match it with
  | DirectiveQuickPickItem _ p | QuickPickItemOfT _ _ p _
  | RepositoryQuickPickItem _ p | CommitQuickPickItem _ p => p
  | _ => false
  end.

(** ** A concrete workspace

    One repository with two stashes, and variations of it, for the
    scenarios of the theorems below. *)

Module Scenario.

Definition work : Repository :=
  {| repo_id := "1"; repo_path := "/work/app"; formattedName := "app" |}.

Definition docs : Repository :=
  {| repo_id := "2"; repo_path := "/work/docs"; formattedName := "docs" |}.

Definition wip : GitStashCommit :=
  {| stashName := "stash@{0}"; stash_message := "WIP on main";
     ref := "4f2a91c0"; repoPath := "/work/app"; shortSha := "4f2a91c";
     number := Some "0"; getShortMessage := "WIP on main" |}.

Definition older : GitStashCommit :=
  {| stashName := "stash@{1}"; stash_message := "half of the parser";
     ref := "9be0d377"; repoPath := "/work/app"; shortSha := "9be0d37";
     number := Some "1"; getShortMessage := "half of the parser" |}.

(** A stash whose message has 91 units. *)
Definition verbose : GitStashCommit :=
  {| stashName := "stash@{2}";
     stash_message :=
       "On main: rewrite the tokenizer so that nested template literals keep their source positions";
     ref := "c01dbeef"; repoPath := "/work/app"; shortSha := "c01dbee";
     number := Some "2"; getShortMessage := "On main: rewrite the tokenizer" |}.

Definition spaces (n : nat) : string := String.concat "" (repeat " " n).

(** A workspace where every call succeeds. *)
Definition env (repositories : list Repository)
    (stashes : option (list GitStashCommit)) : Env :=
  {| getOrderedRepositories := Returns repositories;
     getActiveRepository := Returns None;
     getStashList := fun _ => Returns stashes;
     stashApply := fun _ _ _ => Fulfils;
     stashDelete := fun _ _ => Fulfils;
     stashSave := fun _ _ _ _ _ => Fulfils;
     getItems := fun _ => Returns [CommandQuickPickItem "Open Changes"];
     execute := fun _ => Fulfils;
     skipConfirmations := [];
     pickedVia := "menu";
     super_canSkipConfirm := true;
     getFormattedPath := fun u _ => u;
     pad := fun s before after => (spaces before ++ s ++ spaces after)%string;
     Dot := ".";
     Dash := "-";
     Ellipsis := "~";
     Emdash := "--" |}.

(** The same workspace, where the user has chosen to skip every
    confirmation of the stash command. *)
Definition env_skipping (repositories : list Repository)
    (stashes : option (list GitStashCommit)) : Env :=
  let E := env repositories stashes in
  {| getOrderedRepositories := getOrderedRepositories E;
     getActiveRepository := getActiveRepository E;
     getStashList := getStashList E;
     stashApply := stashApply E;
     stashDelete := stashDelete E;
     stashSave := stashSave E;
     getItems := getItems E;
     execute := execute E;
     skipConfirmations :=
       ["stash-apply:menu"; "stash-drop:menu"; "stash-pop:menu"; "stash-push:menu"];
     pickedVia := pickedVia E;
     super_canSkipConfirm := super_canSkipConfirm E;
     getFormattedPath := getFormattedPath E;
     pad := pad E;
     Dot := Dot E;
     Dash := Dash E;
     Ellipsis := Ellipsis E;
     Emdash := Emdash E |}.

(** The same workspace, where applying a stash fails in the way [how]. *)
Definition env_failing (how : Issued) : Env :=
  let E := env [work] (Some [wip; older]) in
  {| getOrderedRepositories := getOrderedRepositories E;
     getActiveRepository := getActiveRepository E;
     getStashList := getStashList E;
     stashApply := fun _ _ _ => how;
     stashDelete := stashDelete E;
     stashSave := stashSave E;
     getItems := getItems E;
     execute := execute E;
     skipConfirmations := skipConfirmations E;
     pickedVia := pickedVia E;
     super_canSkipConfirm := super_canSkipConfirm E;
     getFormattedPath := getFormattedPath E;
     pad := pad E;
     Dot := Dot E;
     Dash := Dash E;
     Ellipsis := Ellipsis E;
     Emdash := Emdash E |}.

(** The same workspace, where listing the stashes fails. *)
Definition env_unlisted : Env :=
  let E := env [work] None in
  {| getOrderedRepositories := getOrderedRepositories E;
     getActiveRepository := getActiveRepository E;
     getStashList := fun _ => Raises "fatal: not a git repository";
     stashApply := stashApply E;
     stashDelete := stashDelete E;
     stashSave := stashSave E;
     getItems := getItems E;
     execute := execute E;
     skipConfirmations := skipConfirmations E;
     pickedVia := pickedVia E;
     super_canSkipConfirm := super_canSkipConfirm E;
     getFormattedPath := getFormattedPath E;
     pad := pad E;
     Dot := Dot E;
     Dash := Dash E;
     Ellipsis := Ellipsis E;
     Emdash := Emdash E |}.

Definition nothing : PartialState :=
  {| p_subcommand := None; p_repo := None; p_stash := None; p_message := None;
     p_uris := None; p_flags := None |}.

(** [{ command: 'stash', state: { subcommand: tag } }] *)
Definition only (tag : string) : option StashGitCommandArgs :=
  Some {| args_state :=
            Some {| p_subcommand := Some tag; p_repo := None; p_stash := None;
                    p_message := None; p_uris := None; p_flags := None |};
          args_confirm := None |}.

(** The answer that picks a stash. *)
Definition picks (c : GitStashCommit) : Selection :=
  resolve (CommitQuickPickItem c false).

(** The answer that picks the [n]-th confirmation of a confirmation step. *)
Definition confirms (n : nat) (s : Step) : Selection :=
  match s with
  | Confirm c =>
      match nth_error (confirmations c) n with
      | Some it => resolve it
      | None => SelItems []
      end
  | _ => SelItems []
  end.

End Scenario.

Create HintDb wizard.
#[local] Hint Constructors quiet_over confirmed : wizard.

(** Unfolds the monad and splits on what the code branches on. *)
Ltac unfold_monad :=
  unfold confirm_, the_repo, the_stash, the_flags, selected_commit, selected_command,
    selected_flags, selected_subcommand, selected_repository, typed_value,
    canPickStepMoveNext, canInputStepMoveNext in *;
  unfold first_item, modify, issue, await, when in *;
  unfold bind, ret, throw, break_, continue_, return_, stop, emit, get_state,
    set_state, get__subcommand, set__subcommand, get_repos, set_repos,
    get_pickedStash, set_pickedStash, yield_ in *.

Ltac split_match :=
  match goal with
  | |- context [match ?x with _ => _ end] =>
      lazymatch x with
      | context [match _ with _ => _ end] => fail
      | _ => destruct x eqn:?
      end
  end.

Ltac run_code := unfold_monad; cbn; repeat (split_match; cbn).

Ltac quiet := cbn; repeat (apply quiet_yield); first [apply quiet_base | assumption].

Ltac shorter :=
  cbn in *;
  repeat match goal with
         | H : inputs _ = _ |- _ => rewrite H in *; clear H
         | H : context [if true then _ else _] |- _ => cbn in H
         end;
  cbn in *; lia.

Ltac close_post :=
  first
    [ apply post_ok; [quiet | shorter]
    | apply post_continue; [quiet | shorter]
    | apply post_break; [quiet | shorter]
    | apply post_return; [reflexivity | quiet]
    | apply post_stop; [first [discriminate | assumption] | quiet]
    | apply post_error; quiet
    | eapply post_fired;
      [ cbn; reflexivity | quiet | reflexivity | constructor
      | cbn; match goal with H : _ = _ |- _ => rewrite H end; reflexivity ] ].

Lemma quiet_over_trans (a b c : list Event) :
  quiet_over a b -> quiet_over b c -> quiet_over a c.
Proof. intros Hab Hbc. induction Hbc; auto with wizard. Qed.

Section Chains.

Variable E : Env.

(** A piece started later than [w] is a piece started in [w]. *)
Lemma post_after {A} (strict : bool) (w w1 : World) (r : Result A) :
  quiet_over (log w) (log w1) ->
  (length (inputs w1) <= length (inputs w))%nat ->
  post E strict w1 r -> post E strict w r.
Proof.
  intros Hq Hl H. inversion H; subst.
  - apply post_ok; [eapply quiet_over_trans; eauto | lia].
  - apply post_continue; [eapply quiet_over_trans; eauto | lia].
  - apply post_break; [eapply quiet_over_trans; eauto | lia].
  - apply post_return; [reflexivity | eapply quiet_over_trans; eauto].
  - apply post_stop; [assumption | eapply quiet_over_trans; eauto].
  - apply post_error; eapply quiet_over_trans; eauto.
  - eapply post_fired; eauto. eapply quiet_over_trans; eauto.
Qed.

(** [m ;; k] where neither has to consume an answer. *)
Lemma post_bind {A B} (m : M A) (k : A -> M B) (w : World) :
  post E false w (m w) ->
  (forall a w1, post E false w1 (k a w1)) ->
  post E false w (bind m k w).
Proof.
  intros Hm Hk. unfold bind. inversion Hm; subst.
  - eapply post_after; [eassumption | lia | apply Hk].
  - now apply post_continue.
  - now apply post_break.
  - now apply post_return.
  - now apply post_stop.
  - now apply post_error.
  - eapply post_fired; eauto.
Qed.

Lemma post_lenient {A} (w : World) (r : Result A) :
  post E true w r -> post E false w r.
Proof.
  intros H. inversion H; subst.
  - apply post_ok; [assumption | lia].
  - now apply post_continue.
  - now apply post_break.
  - discriminate.
  - now apply post_stop.
  - now apply post_error.
  - eapply post_fired; eauto.
Qed.

Lemma applyOrPop_body_post (w : World) : post E true w (applyOrPop_body E w).
Proof. unfold applyOrPop_body. run_code. all: close_post. Qed.

Lemma drop_body_post (w : World) : post E true w (drop_body E w).
Proof. unfold drop_body. run_code. all: close_post. Qed.

Lemma list_body_post (w : World) : post E true w (list_body E w).
Proof. unfold list_body. run_code. all: close_post. Qed.

Lemma push_body_post (w : World) : post E true w (push_body E w).
Proof. unfold push_body. run_code. all: close_post. Qed.

(** A loop whose body consumes an answer on every round never runs out
    of fuel, and leaves as its body does. *)
Lemma while_fuel_post (body : M unit) :
  (forall w, post E true w (body w)) ->
  forall (n : nat) (w : World),
    (length (inputs w) < n)%nat ->
    post E true w (while_fuel n body w).
Proof.
  intros Hbody n. induction n as [|n IH]; intros w Hn; [lia|].
  cbn [while_fuel]. pose proof (Hbody w) as H.
  destruct (body w) as [[] w'|ex w'|[] w'|h w']; inversion H; subst.
  - eapply post_after; [eassumption | lia | apply IH; lia].
  - now apply post_error.
  - eapply post_fired; eauto.
  - apply post_ok; [assumption | lia].
  - eapply post_after; [eassumption | lia | apply IH; lia].
  - discriminate.
  - now apply post_stop.
Qed.

Lemma while_true_post (body : M unit) (w : World) :
  (forall w, post E true w (body w)) ->
  post E true w (while_true body w).
Proof. intros H. unfold while_true. apply while_fuel_post; [assumption | lia]. Qed.

(** [function_ (prelude ;; while_true body ;; return_)] for a prelude that
    neither logs nor consumes. *)
Lemma chain_post (body : M unit) (w w0 : World) :
  (forall w, post E true w (body w)) ->
  log w0 = log w -> inputs w0 = inputs w ->
  post E true w (function_ (while_true body ;; return_) w0).
Proof.
  intros Hbody Hlog Hin. unfold function_, bind, return_.
  pose proof (while_true_post body w0 Hbody) as H.
  assert (Hq : quiet_over (log w) (log w0)) by (rewrite Hlog; constructor).
  destruct (while_true body w0) as [[] w'|ex w'|[] w'|h w'];
    (eapply post_after; [exact Hq | rewrite Hin; lia |]);
    inversion H; subst.
  - now apply post_ok.
  - now apply post_error.
  - eapply post_fired; eauto.
  - now apply post_break.
  - now apply post_continue.
  - discriminate.
  - now apply post_stop.
Qed.

Lemma applyOrPop_post (w : World) : post E true w (applyOrPop E w).
Proof. apply chain_post; auto using applyOrPop_body_post. Qed.

Lemma drop_post (w : World) : post E true w (drop E w).
Proof. apply chain_post; auto using drop_body_post. Qed.

Lemma list_post (w : World) : post E true w (StashGitCommand.list E w).
Proof.
  unfold StashGitCommand.list, function_ at 1.
  change (post E true w
            (function_ (while_true (list_body E) ;; return_)
               (world_of (set_pickedStash None w)))).
  apply chain_post; auto using list_body_post.
Qed.

Lemma push_post (w : World) : post E true w (push E w).
Proof.
  unfold push, function_ at 1, bind at 1, get_state, bind at 1, when.
  destruct (is_undefined (flags (state w)));
    [ change (post E true w
                (function_ (while_true (push_body E) ;; return_)
                   (world_of (modify (with_flags (Some [])) w))))
    | change (post E true w (function_ (while_true (push_body E) ;; return_) w)) ];
    apply chain_post; auto using push_body_post.
Qed.

Lemma choose_subcommand_post (w : World) : post E false w (choose_subcommand w).
Proof. unfold choose_subcommand. run_code. all: close_post. Qed.

Lemma ordered_repositories_post (w : World) : post E false w (ordered_repositories E w).
Proof. unfold ordered_repositories. run_code. all: close_post. Qed.

Lemma choose_repository_post (rs : list Repository) (w : World) :
  post E false w (choose_repository E rs w).
Proof. unfold choose_repository. run_code. all: close_post. Qed.

Ltac after_chain H :=
  match goal with
  | |- context [match ?c with _ => _ end] =>
      destruct c as [[] ?|? ?|[] ?|? ?]; inversion H; subst; cbn;
      try discriminate; try close_post;
      try (eapply post_fired; eauto; fail)
  end.

(** Lines 241-262: the chain, and then the counter taken back. *)
Lemma dispatch_post (rs : list Repository) (w : World) :
  post E false w ((dispatch E ;; step_back_over_repository rs) w).
Proof.
  unfold dispatch, step_back_over_repository, bind at 1 2, get_state.
  destruct (is_tag (subcommand (state w)) "apply" || is_tag (subcommand (state w)) "pop").
  { pose proof (applyOrPop_post w) as H. unfold_monad. after_chain H.
    all: split_match; cbn; close_post. }
  destruct (is_tag (subcommand (state w)) "drop").
  { pose proof (drop_post w) as H. unfold_monad. after_chain H.
    all: split_match; cbn; close_post. }
  destruct (is_tag (subcommand (state w)) "list").
  { pose proof (list_post w) as H. unfold_monad. after_chain H.
    all: split_match; cbn; close_post. }
  destruct (is_tag (subcommand (state w)) "push").
  { pose proof (push_post w) as H. unfold_monad. after_chain H.
    all: split_match; cbn; close_post. }
  cbn. close_post.
Qed.

Lemma steps_try_post (w : World) : post E false w (steps_try E w).
Proof.
  unfold steps_try.
  apply post_bind; [apply choose_subcommand_post | intros _ w1].
  apply post_bind; [unfold get_state; close_post | intros st w2].
  apply post_bind; [unfold set__subcommand; close_post | intros _ w3].
  apply post_bind; [apply ordered_repositories_post | intros rs w4].
  apply post_bind; [apply choose_repository_post | intros _ w5].
  apply dispatch_post.
Qed.

Lemma failure_after (base b : list Event) (l : list Event) :
  quiet_over base b -> failure E b l -> failure E base l.
Proof.
  intros Hq Hf. inversion Hf; subst.
  - apply failure_awaited. eapply quiet_over_trans; eauto.
  - eapply failure_call; eauto. eapply quiet_over_trans; eauto.
Qed.

Lemma ended_after (base b : list Event) (r : Result unit) :
  quiet_over base b -> ended E b r -> ended E base r.
Proof.
  intros Hq He. inversion He; subst.
  - apply ended_quiet. eapply quiet_over_trans; eauto.
  - apply ended_stop; [assumption | eapply quiet_over_trans; eauto].
  - eapply ended_break; eauto. eapply quiet_over_trans; eauto.
  - eapply ended_reported; eauto using failure_after.
  - eapply ended_rethrown; eauto using failure_after.
Qed.

Lemma while_fuel_leaves (body : M unit) (n : nat) :
  forall w w', while_fuel n body w <> Jumps JBreak w'
               /\ while_fuel n body w <> Jumps JContinue w'.
Proof.
  induction n as [|n IH]; intros w w'; cbn [while_fuel]; [split; discriminate|].
  destruct (body w) as [[] w1|ex w1|[] w1|h w1]; try (split; discriminate); apply IH.
Qed.

Lemma steps_try_not_ok (w : World) (a : unit) (w' : World) :
  steps_try E w <> Ok a w'.
Proof.
  unfold steps_try, step_back_over_repository, bind, when, continue_, modify.
  repeat match goal with
         | |- context [match ?x with _ => _ end] => destruct x
         end; discriminate.
Qed.

(** The handler on an [Error]: one message and the wizard returns, or the
    error is raised again; the error is logged first. *)
Lemma steps_catch_post (msg : string) (w : World) :
  let context := (title ++ "." ++ Js.template (subcommand (state w)))%string in
  (exists report w',
      steps_catch E (Error msg) w = Jumps JReturn w'
      /\ log w' = report :: LoggerError (Error msg) context :: log w
      /\ is_report report = true)
  \/ (exists w',
      steps_catch E (Error msg) w = Throw (Error msg) w'
      /\ log w' = LoggerError (Error msg) context :: log w).
Proof.
  unfold steps_catch, classify. run_code.
  all: first [ left; do 2 eexists; repeat split; reflexivity
             | right; eexists; split; reflexivity ].
Qed.

(** The loop of [steps]: it never runs out of fuel and ends as [ended] says. *)
Lemma steps_loop_ended (n : nat) :
  forall w : World,
    (length (inputs w) < n)%nat ->
    ended E (log w) (finish (while_fuel n (try_catch (steps_try E) (steps_catch E)) w)).
Proof.
  induction n as [|n IH]; intros w Hn; [lia|].
  cbn [while_fuel]. unfold try_catch at 1.
  pose proof (steps_try_post w) as H.
  pose proof (steps_try_not_ok w) as Hnot.
  destruct (steps_try E w) as [[] w'|ex w'|[] w'|h w']; inversion H; subst.
  - exfalso. eapply Hnot. reflexivity.
  - destruct (steps_catch_post msg w') as [(report & w2 & Hr & Hl & Hrep)|(w2 & Hr & Hl)];
      rewrite Hr; cbn.
    + eapply ended_reported; eauto. now apply failure_awaited.
    + eapply ended_rethrown; eauto. now apply failure_awaited.
  - destruct (outcome_of E call) as [|m|m] eqn:Ho; cbn [raised_by].
    + cbn. eapply ended_break; eauto. intros m. rewrite Ho. discriminate.
    + cbn. eapply ended_break; eauto. intros m'. rewrite Ho. discriminate.
    + assert (Hf : failure E (log w) (log w')).
      { match goal with Hl : log _ = _ |- _ => rewrite Hl end.
        eapply failure_call; eauto. }
      destruct (steps_catch_post m w') as [(report & w2 & Hr & Hl & Hrep)|(w2 & Hr & Hl)];
        rewrite Hr; cbn.
      * eapply ended_reported; eauto.
      * eapply ended_rethrown; eauto.
  - cbn. now apply ended_quiet.
  - eapply ended_after; [eassumption | apply IH; lia].
  - cbn. now apply ended_quiet.
  - cbn. now apply ended_stop.
Qed.

Lemma steps_finish (w : World) :
  steps E w = finish (while_true (try_catch (steps_try E) (steps_catch E)) w).
Proof.
  unfold steps, function_, bind, return_, while_true.
  pose proof (while_fuel_leaves (try_catch (steps_try E) (steps_catch E))
                (S (length (inputs w))) w) as H.
  destruct (while_fuel _ _ w) as [[] w'|ex w'|[] w'|h w']; try reflexivity.
  - destruct (H w') as [Hb _]. now contradiction Hb.
  - destruct (H w') as [_ Hc]. now contradiction Hc.
Qed.

(** [steps] is total, logs at most one terminal call and yields no step
    after it. *)
Lemma steps_ended (w : World) : ended E (log w) (steps E w).
Proof.
  rewrite steps_finish. unfold while_true. apply steps_loop_ended. lia.
Qed.


(** [steps] and the chains never run out of fuel. *)
Lemma steps_total (w w' : World) : steps E w <> Stop OutOfFuel w'.
Proof.
  intros Heq. pose proof (steps_ended w) as H. rewrite Heq in H.
  inversion H; congruence.
Qed.

Lemma chains_total (chain : M unit) (w w' : World) :
  In chain [applyOrPop E; drop E; StashGitCommand.list E; push E] ->
  chain w <> Stop OutOfFuel w'.
Proof.
  intros Hin Heq.
  assert (H : post E true w (chain w)).
  { destruct Hin as [<-|[<-|[<-|[<-|[]]]]];
      auto using applyOrPop_post, drop_post, list_post, push_post. }
  rewrite Heq in H. inversion H; congruence.
Qed.

Lemma quiet_only_yields (l : list Event) :
  quiet_over [] l -> forall e, In e l -> is_yield e = true.
Proof.
  induction 1 as [|s l Hq IH]; intros e Hin; [contradiction|].
  destruct Hin as [<-|Hin]; [reflexivity | now apply IH].
Qed.

Lemma run_ended (args : option StashGitCommandArgs) (answers : list Selection) :
  ended E [] (run E args answers).
Proof. unfold run. apply (steps_ended (start (constructor args) answers)). Qed.

End Chains.

(** ** Where the terminal call sits in the log *)

(** A log splits in one way around its only event with property [P]. *)
Lemma split_unique (P : Event -> bool) (notes ys later earlier : list Event) (x y : Event) :
  (forall e, In e notes -> P e = false) ->
  (forall e, In e ys -> P e = false) ->
  P y = true ->
  notes ++ x :: ys = later ++ y :: earlier ->
  later = notes /\ y = x /\ earlier = ys.
Proof.
  revert later. induction notes as [|n notes IH]; intros later Hn Hy Py Heq.
  - destruct later as [|z later]; cbn in Heq.
    + injection Heq as -> ->. auto.
    + injection Heq as -> Hrest. exfalso.
      assert (P y = false) by (apply Hy; rewrite Hrest; apply in_or_app; right; now left).
      congruence.
  - destruct later as [|z later]; cbn in Heq.
    + injection Heq as <- _. exfalso.
      assert (P n = false) by (apply Hn; now left). congruence.
    + injection Heq as -> Hrest.
      destruct (IH later) as (-> & -> & ->); auto.
      intros e He. apply Hn. now right.
Qed.

Lemma split_none (P : Event -> bool) (l later earlier : list Event) (y : Event) :
  (forall e, In e l -> P e = false) ->
  P y = true ->
  l = later ++ y :: earlier -> False.
Proof.
  intros Hl Py ->.
  assert (P y = false) by (apply Hl; apply in_or_app; right; now left).
  congruence.
Qed.

(** The log of a run that has ended: messages of the handler, then at most
    one terminal call, then the steps that were yielded. *)
Lemma ended_shape (E : Env) (r : Result unit) :
  ended E [] r ->
  (forall w, r <> Stop OutOfFuel w)
  /\ exists notes mid ys,
      log (world_of r) = notes ++ mid ++ ys
      /\ (forall e, In e notes -> is_yield e = false /\ terminal e = false)
      /\ (forall e, In e ys -> is_yield e = true)
      /\ (mid = []
          \/ exists call,
              mid = [call] /\ terminal call = true /\ confirmed E call ys
              /\ ((forall msg, outcome_of E call <> Throws msg) ->
                  notes = [] /\ r = Ok tt (world_of r))).
Proof.
  intros H. split; [intros w0 Heq; inversion H; subst; congruence|].
  assert (Hnote : forall report msg c e,
             is_report report = true ->
             In e [report; LoggerError (Error msg) c] ->
             is_yield e = false /\ terminal e = false).
  { intros report msg c e Hr [<-|[<-|[]]]; [destruct report; try discriminate|]; auto. }
  assert (Hlog : forall msg c e,
             In e [LoggerError (Error msg) c] ->
             is_yield e = false /\ terminal e = false).
  { intros msg c e [<-|[]]; auto. }
  inversion H as [w' Hq|h w' Hh Hq|call l w' Hl Hq Ht Hc Ho
                 |report msg c l w' Hl Hr Hf|msg c l w' Hl Hf]; subst; cbn [world_of].
  - exists [], [], (log w'). cbn. repeat split; try contradiction.
    + now apply quiet_only_yields.
    + now left.
  - exists [], [], (log w'). cbn. repeat split; try contradiction.
    + now apply quiet_only_yields.
    + now left.
  - exists [], [call], l. cbn. repeat split; try contradiction; auto.
    + now apply quiet_only_yields.
    + right. exists call. repeat split; auto.
  - inversion Hf as [l' Hq|call l' m Hq Ht Hc Ho]; subst.
    + exists [report; LoggerError (Error msg) c], [], l. repeat split; eauto.
      * eapply Hnote; eauto.
      * eapply Hnote; eauto.
      * now apply quiet_only_yields.
    + exists [report; LoggerError (Error msg) c], [call], l'. repeat split; eauto.
      * eapply Hnote; eauto.
      * eapply Hnote; eauto.
      * now apply quiet_only_yields.
      * right. exists call. repeat split; auto; exfalso; eapply H0; eauto.
  - inversion Hf as [l' Hq|call l' m Hq Ht Hc Ho]; subst.
    + exists [LoggerError (Error msg) c], [], l. repeat split; eauto.
      * eapply Hlog; eauto.
      * eapply Hlog; eauto.
      * now apply quiet_only_yields.
    + exists [LoggerError (Error msg) c], [call], l'. repeat split; eauto.
      * eapply Hlog; eauto.
      * eapply Hlog; eauto.
      * now apply quiet_only_yields.
      * right. exists call. repeat split; auto; exfalso; eapply H0; eauto.
Qed.

(** ** The confirmation of [drop] *)

(** C1: whatever the remembered preference and the confirm override, a
    command whose subcommand is [drop] cannot skip its confirmation; in
    every run, every [stashDelete] call comes right after the confirmation
    step of [drop] was yielded and answered; and once the stash is known the
    first thing the chain does is yield that step. *)
Theorem drop_always_confirms (E : Env) :
  canSkipConfirm E (Some "drop") = false
  /\ (forall (args : option StashGitCommandArgs) (answers : list Selection)
        (later earlier : list Event) (p n : string),
         log (world_of (run E args answers)) = later ++ StashDelete p n :: earlier ->
         exists st r s rest,
           earlier = Yielded (drop_confirm_step E st r s) :: rest
           /\ p = repo_path r /\ n = stashName s)
  /\ (forall (w : World) (r : Repository) (s : GitStashCommit),
         repo (state w) = Some r ->
         stash (state w) = Some s ->
         3 <= counter (state w) ->
         exists after,
           log (world_of (drop E w))
           = after ++ Yielded (drop_confirm_step E (state w) r s) :: log w).
Proof.
  split; [reflexivity|]. split.
  - intros args answers later earlier p n Hlog.
    destruct (ended_shape E _ (run_ended E args answers))
      as (_ & notes & mid & ys & Hshape & Hnotes & Hys & Hmid).
    rewrite Hshape in Hlog.
    assert (Hn : forall e, In e notes -> terminal e = false) by (intros e He; now apply Hnotes).
    assert (Hy : forall e, In e ys -> terminal e = false).
    { intros e He. apply Hys in He. now destruct e. }
    destruct Hmid as [->|(call & -> & Ht & Hc & _)]; cbn [app] in Hlog.
    + exfalso. eapply (split_none terminal (notes ++ ys)); [| |exact Hlog]; [|reflexivity].
      intros e He. apply in_app_or in He. destruct He; auto.
    + destruct (split_unique terminal notes ys later earlier call (StashDelete p n))
        as (_ & <- & ->); auto.
      inversion Hc; subst. eauto 8.
  - intros w r s Hr Hs Hc.
    assert (Hlt : (counter (state w) <? 3)%Z = false) by (apply Z.ltb_ge; lia).
    unfold drop, function_, while_true. cbn [while_fuel]. unfold drop_body.
    unfold_monad. cbn -[Z.ltb].
    repeat (progress (rewrite ?Hs, ?Hlt, ?Hr; cbn -[Z.ltb])).
    repeat (split_match; cbn).
    all: first [ exists []; reflexivity | eexists [_]; reflexivity ].
Qed.

(** The user skips all confirmations and the caller passes [confirm:
    false]; the stash is dropped only after the confirmation step. *)
Lemma drop_always_confirms_witness :
  let E := Scenario.env_skipping [Scenario.work] (Some [Scenario.wip; Scenario.older]) in
  let args :=
    Some {| args_state :=
              Some {| p_subcommand := Some "drop"; p_repo := None; p_stash := None;
                      p_message := None; p_uris := None; p_flags := None |};
            args_confirm := Some false |} in
  let answers :=
    [ Scenario.picks Scenario.wip;
      Scenario.confirms 0
        (drop_confirm_step E (initial_state (constructor args)) Scenario.work Scenario.wip) ] in
  let happened := log (world_of (run E args answers)) in
  let known :=
    {| state :=
         with_counter 3
           (with_stash (Some Scenario.wip)
              (with_repo (Some Scenario.work) (initial_state (constructor args))));
       _subcommand := Some "drop"; repos := Some [Scenario.work]; pickedStash := None;
       inputs := []; log := [] |} in
  (happened = [] ++ StashDelete "/work/app" "stash@{0}" :: tl happened
   /\ exists st r s rest,
       tl happened = Yielded (drop_confirm_step E st r s) :: rest
       /\ "/work/app" = repo_path r /\ "stash@{0}" = stashName s)
  /\ exists after,
      log (world_of (drop E known))
      = after ++ Yielded (drop_confirm_step E (state known) Scenario.work Scenario.wip)
                 :: log known.
Proof.
  intros E args answers happened known.
  assert (H : happened = [] ++ StashDelete "/work/app" "stash@{0}" :: tl happened)
    by reflexivity.
  split.
  - split; [exact H|].
    exact (proj1 (proj2 (drop_always_confirms E)) args answers [] (tl happened) _ _ H).
  - apply (proj2 (proj2 (drop_always_confirms E)) known Scenario.work Scenario.wip);
      reflexivity.
Defined.

(** ** Break isolation *)

(** C3: a chain whose terminal call has returned raises the break signal at
    once; the handler of [steps] answers the break signal by leaving the
    loop, logging nothing; and in every run no step is yielded after the
    terminal call, no second terminal call is made, and when the call has
    returned the run ends normally right there. *)
Theorem break_isolation (E : Env) :
  (forall (chain : M unit) (w : World) (call : Event) (l : list Event),
      In chain [applyOrPop E; drop E; StashGitCommand.list E; push E] ->
      (forall e, In e (log w) -> terminal e = false) ->
      log (world_of (chain w)) = call :: l ->
      terminal call = true ->
      (forall msg, outcome_of E call <> Throws msg) ->
      chain w = Throw BreakQuickCommand (world_of (chain w)))
  /\ (forall w : World, steps_catch E BreakQuickCommand w = Jumps JBreak w)
  /\ (forall (args : option StashGitCommandArgs) (answers : list Selection)
        (later earlier : list Event) (call : Event),
         log (world_of (run E args answers)) = later ++ call :: earlier ->
         terminal call = true ->
         Forall (fun e => is_yield e = false) later
         /\ Forall (fun e => terminal e = false) (later ++ earlier)
         /\ ((forall msg, outcome_of E call <> Throws msg) ->
             later = []
             /\ run E args answers = Ok tt (world_of (run E args answers)))).
Proof.
  split; [|split; [reflexivity|]].
  - intros chain w call l Hin Hcalm Hlog Ht Ho.
    assert (H : post E true w (chain w)).
    { destruct Hin as [<-|[<-|[<-|[<-|[]]]]];
        auto using applyOrPop_post, drop_post, list_post, push_post. }
    assert (Hno : forall l', quiet_over (log w) l' -> l' = call :: l -> False).
    { intros l' Hq Heq. destruct Hq.
      - assert (terminal call = false) by (apply Hcalm; rewrite Heq; now left).
        congruence.
      - injection Heq as <- _. discriminate Ht. }
    destruct (chain w) as [a w'|ex w'|j w'|h w']; cbn [world_of] in *;
      inversion H; subst; try (exfalso; eapply Hno; eauto; fail).
    match goal with Hl : log w' = _ :: _ |- _ => rewrite Hl in Hlog end.
    injection Hlog as -> ->.
    destruct (outcome_of E call) as [|m|m] eqn:Hout; try reflexivity.
    exfalso. now apply (Ho m).
  - intros args answers later earlier call Hlog Ht.
    destruct (ended_shape E _ (run_ended E args answers))
      as (_ & notes & mid & ys & Hshape & Hnotes & Hys & Hmid).
    rewrite Hshape in Hlog.
    assert (Hn : forall e, In e notes -> terminal e = false) by (intros e He; now apply Hnotes).
    assert (Hy : forall e, In e ys -> terminal e = false).
    { intros e He. apply Hys in He. now destruct e. }
    destruct Hmid as [->|(call' & -> & Ht' & Hc & Hret)]; cbn [app] in Hlog.
    + exfalso. eapply (split_none terminal (notes ++ ys)); [| |exact Hlog]; [|exact Ht].
      intros e He. apply in_app_or in He. destruct He; auto.
    + destruct (split_unique terminal notes ys later earlier call' call)
        as (-> & -> & ->); auto.
      repeat split.
      * apply Forall_forall. intros e He. now apply Hnotes.
      * apply Forall_forall. intros e He. apply in_app_or in He. destruct He; auto.
      * now apply Hret.
      * now apply Hret.
Qed.

(** The stash is popped after the confirmation; nothing follows the call,
    and the chain alone, started with the stash known, raises the break
    signal. *)
Lemma break_isolation_witness :
  let E := Scenario.env [Scenario.work] (Some [Scenario.wip; Scenario.older]) in
  let args := Scenario.only "pop" in
  let step :=
    applyOrPop_confirm_step E (initial_state (constructor args))
      Scenario.work Scenario.older in
  let answers := [Scenario.picks Scenario.older; Scenario.confirms 0 step] in
  let happened := log (world_of (run E args answers)) in
  let call := StashApply "/work/app" "stash@{1}" true in
  let known :=
    {| state :=
         with_counter 3
           (with_stash (Some Scenario.older)
              (with_repo (Some Scenario.work) (initial_state (constructor args))));
       _subcommand := Some "pop";
       repos := Some [Scenario.work];
       pickedStash := None;
       inputs := [Scenario.confirms 0 step];
       log := [] |} in
  (happened = [] ++ call :: tl happened
   /\ Forall (fun e => is_yield e = false) []
   /\ Forall (fun e => terminal e = false) ([] ++ tl happened)
   /\ run E args answers = Ok tt (world_of (run E args answers)))
  /\ (log (world_of (applyOrPop E known)) = [call; Yielded step]
      /\ applyOrPop E known = Throw BreakQuickCommand (world_of (applyOrPop E known))).
Proof.
  intros E args step answers happened call known.
  assert (H : happened = [] ++ call :: tl happened) by reflexivity.
  assert (Hret : forall msg, outcome_of E call <> Throws msg) by (intros msg; discriminate).
  destruct (proj2 (proj2 (break_isolation E)) args answers [] (tl happened) call H eq_refl)
    as (H1 & H2 & H3).
  split.
  - split; [exact H|]. split; [exact H1|]. split; [exact H2|]. exact (proj2 (H3 Hret)).
  - assert (Hk : log (world_of (applyOrPop E known)) = [call; Yielded step]) by reflexivity.
    split; [exact Hk|].
    apply (proj1 (break_isolation E) (applyOrPop E) known call [Yielded step]).
    + now left.
    + intros e [].
    + exact Hk.
    + reflexivity.
    + exact Hret.
Defined.

(** ** Failures of the terminal call *)

(** What the handler does once an [Error] of applying a stash reaches it. *)
Lemma apply_failure_classified (E : Env) (msg : string) (w : World) :
  is_tag (subcommand (state w)) "apply" || is_tag (subcommand (state w)) "pop" = true ->
  let context := (title ++ "." ++ Js.template (subcommand (state w)))%string in
  exists report w',
    steps_catch E (Error msg) w = Jumps JReturn w'
    /\ log w' = report :: LoggerError (Error msg) context :: log w
    /\ report =
       if Js.includes msg
            "Your local changes to the following files would be overwritten by merge"
       then ShowWarningMessage
              "Unable to apply stash. Your working tree changes would be overwritten"
       else if Js.includes msg "Auto-merging" && Js.includes msg "CONFLICT"
       then ShowInformationMessage "Stash applied with conflicts"
       else ShowGenericErrorMessage
              ("Unable to apply stash " ++ Emdash E ++ " "
               ++ Js.replace_newlines "; " (Js.trim msg)).
Proof.
  intros Htag context. unfold steps_catch, classify. unfold_monad. cbn.
  rewrite Htag.
  destruct (Js.includes msg
              "Your local changes to the following files would be overwritten by merge");
    [do 2 eexists; repeat split; reflexivity|].
  destruct (Js.includes msg "Auto-merging" && Js.includes msg "CONFLICT");
    do 2 eexists; repeat split; reflexivity.
Qed.

(** When [stashApply] raises at the call, the run ends with the warning. *)
Example apply_failure_at_the_call :
  let E :=
    Scenario.env_failing
      (Throws "error: Your local changes to the following files would be overwritten by merge") in
  let args := Scenario.only "apply" in
  let step :=
    applyOrPop_confirm_step E (initial_state (constructor args)) Scenario.work Scenario.wip in
  let r := run E args [Scenario.picks Scenario.wip; Scenario.confirms 0 step] in
  r = Ok tt (world_of r)
  /\ hd_error (log (world_of r))
     = Some (ShowWarningMessage
               "Unable to apply stash. Your working tree changes would be overwritten").
Proof. vm_compute. split; reflexivity. Qed.

(** C2: [stashApply] is called with [void] and not awaited.  When the
    promise it returns is rejected with "would be overwritten by merge",
    the chain has already raised the break signal: the run ends normally
    after the call, the handler is never entered and no warning, no
    information and no failure message is shown. *)
Theorem apply_rejection_unnoticed :
  let E :=
    Scenario.env_failing
      (Rejects "error: Your local changes to the following files would be overwritten by merge") in
  let args := Scenario.only "apply" in
  let step :=
    applyOrPop_confirm_step E (initial_state (constructor args)) Scenario.work Scenario.wip in
  let r := run E args [Scenario.picks Scenario.wip; Scenario.confirms 0 step] in
  r = Ok tt (world_of r)
  /\ hd_error (log (world_of r)) = Some (StashApply "/work/app" "stash@{0}" false)
  /\ map is_yield (history (world_of r)) = [true; true; false]
  /\ existsb is_report (log (world_of r)) = false.
Proof. vm_compute. repeat split; reflexivity. Qed.

(** A rejected promise is never noticed, whatever the workspace and the
    answers: a run whose terminal call returned a promise shows no message. *)
Lemma rejection_unnoticed (E : Env) (args : option StashGitCommandArgs)
    (answers : list Selection) (later earlier : list Event) (call : Event) (msg : string) :
  log (world_of (run E args answers)) = later ++ call :: earlier ->
  terminal call = true ->
  outcome_of E call = Rejects msg ->
  existsb is_report (log (world_of (run E args answers))) = false
  /\ run E args answers = Ok tt (world_of (run E args answers)).
Proof.
  intros Hlog Ht Ho.
  destruct (ended_shape E _ (run_ended E args answers))
    as (_ & notes & mid & ys & Hshape & Hnotes & Hys & Hmid).
  assert (Hn : forall e, In e notes -> terminal e = false) by (intros e He; now apply Hnotes).
  assert (Hy : forall e, In e ys -> terminal e = false).
  { intros e He. apply Hys in He. now destruct e. }
  rewrite Hshape in Hlog.
  destruct Hmid as [->|(call' & -> & Ht' & Hc & Hret)]; cbn [app] in Hlog.
  - exfalso. eapply (split_none terminal (notes ++ ys)); [| |exact Hlog]; [|exact Ht].
    intros e He. apply in_app_or in He. destruct He; auto.
  - destruct (split_unique terminal notes ys later earlier call' call)
      as (-> & -> & ->); auto.
    destruct Hret as [-> Hok]; [intros m; rewrite Ho; discriminate|].
    split; [|exact Hok].
    rewrite Hshape. cbn.
    destruct (existsb is_report ys) eqn:Hex; [|now destruct call'].
    apply existsb_exists in Hex. destruct Hex as (e & He & Hr).
    apply Hys in He. destruct e; discriminate.
Qed.

(** ** The handler of [steps] *)

(** C9, as the code has it: the break signal leaves the loop; an error that
    reaches the handler while the tag is [apply], [pop], [drop] or [push] is
    logged, reported to the user with one message, and the wizard returns;
    while the tag is [list], unset or anything else the error is logged and
    raised again to the caller. *)
Theorem handler_classifies (E : Env) (msg : string) (w : World) :
  let tag := subcommand (state w) in
  let context := (title ++ "." ++ Js.template tag)%string in
  steps_catch E BreakQuickCommand w = Jumps JBreak w
  /\ (classified tag = true ->
      exists report w',
        steps_catch E (Error msg) w = Jumps JReturn w'
        /\ function_ (steps_catch E (Error msg)) w = Ok tt w'
        /\ log w' = report :: LoggerError (Error msg) context :: log w
        /\ is_report report = true)
  /\ (classified tag = false ->
      exists w',
        steps_catch E (Error msg) w = Throw (Error msg) w'
        /\ log w' = LoggerError (Error msg) context :: log w)
  /\ classified (Some "list") = false
  /\ classified None = false.
Proof.
  intros tag context. split; [reflexivity|].
  unfold classified, steps_catch, classify, function_, tag. unfold_monad. cbn.
  destruct (is_tag (subcommand (state w)) "apply");
    destruct (is_tag (subcommand (state w)) "pop");
    destruct (is_tag (subcommand (state w)) "drop");
    destruct (is_tag (subcommand (state w)) "push"); cbn;
    (split; [intros Hc|split; [intros Hc|split; reflexivity]]); try discriminate;
    repeat split_match;
    first [ do 2 eexists; repeat split; reflexivity
          | eexists; split; reflexivity ].
Qed.

(** A failed deletion is reported; a failure while the stashes are listed
    is raised again. *)
Lemma handler_classifies_witness :
  let E := Scenario.env [Scenario.work] (Some [Scenario.wip]) in
  let at_tag (tag : string) :=
    start (Some (with_subcommand (Some tag) (initial_state None))) [] in
  (exists report w',
      steps_catch E (Error "fatal: bad revision") (at_tag "drop") = Jumps JReturn w'
      /\ function_ (steps_catch E (Error "fatal: bad revision")) (at_tag "drop") = Ok tt w'
      /\ log w' = [report; LoggerError (Error "fatal: bad revision") "Stash.drop"]
      /\ is_report report = true)
  /\ (exists w',
      steps_catch E (Error "fatal: bad revision") (at_tag "list")
      = Throw (Error "fatal: bad revision") w'
      /\ log w' = [LoggerError (Error "fatal: bad revision") "Stash.list"]).
Proof.
  intros E at_tag. split.
  - exact (proj1 (proj2 (handler_classifies E "fatal: bad revision" (at_tag "drop"))) eq_refl).
  - exact (proj1 (proj2 (proj2 (handler_classifies E "fatal: bad revision" (at_tag "list"))))
             eq_refl).
Defined.

(** C9 as stated fails for [list]: the stashes cannot be listed, the error
    reaches the handler while the tag is [list], nothing is shown to the
    user and the error is raised to the caller. *)
Lemma list_failure_reraised :
  let r := run Scenario.env_unlisted (Scenario.only "list") [] in
  r = Throw (Error "fatal: not a git repository") (world_of r)
  /\ subcommand (state (world_of r)) = Some "list"
  /\ history (world_of r)
     = [LoggerError (Error "fatal: not a git repository") "Stash.list"]
  /\ existsb is_report (log (world_of r)) = false.
Proof. vm_compute. repeat split; reflexivity. Qed.

(** ** Switching the verb at confirmation time *)

(** C4: entered as [apply] or [pop] with the stash known, the confirmation
    step offers the requested verb and then the other one; the verb of the
    chosen item is written to [state.subcommand] before the terminal call,
    and [stashApply] is called with [deleteAfter] true exactly when that verb
    is [pop]; so it is when the stash was known from the start and when it
    was picked at the stash step. *)
Theorem confirmation_switches_verb (E : Env) (w : World) (r : Repository)
    (s : GitStashCommit) (verb : string) :
  repo (state w) = Some r ->
  subcommand (state w) = Some verb ->
  verb = "apply" \/ verb = "pop" ->
  asks_to_confirm E w = true ->
  let step (st : State) := applyOrPop_confirm_step E st r s in
  let other := if String.eqb verb "pop" then "apply" else "pop" in
  (forall st : State,
      subcommand st = Some verb ->
      map command_of (menu (step st)) = [Some verb; Some other]
      /\ map label_of (menu (step st))
         = [if String.eqb verb "pop" then "Stash Pop" else "Stash Apply";
            if String.eqb verb "pop" then "Stash Apply" else "Stash Pop"])
  /\ (forall (l d dt : string) (chosen : option string) (more : list Item)
        (rest : list Selection),
         stash (state w) = Some s ->
         3 <= counter (state w) ->
         inputs w = SelItems (ConfirmCommandItem l d dt chosen :: more) :: rest ->
         let remove := is_tag chosen "pop" in
         let w' := world_of (applyOrPop E w) in
         applyOrPop E w
         = Throw (raised_by (stashApply E (repo_path r) (stashName s) remove)) w'
         /\ log w'
            = StashApply (repo_path r) (stashName s) remove
              :: Yielded (step (state w)) :: log w
         /\ subcommand (state w') = chosen)
  /\ (forall (listing : option (list GitStashCommit)) (picked : bool)
        (l d dt : string) (chosen : option string) (more0 more : list Item)
        (rest : list Selection),
         is_undefined (stash (state w)) || (counter (state w) <? 3)%Z = true ->
         getStashList E (repo_path r) = Returns listing ->
         inputs w
         = SelItems (CommitQuickPickItem s picked :: more0)
           :: SelItems (ConfirmCommandItem l d dt chosen :: more) :: rest ->
         let remove := is_tag chosen "pop" in
         let w' := world_of (applyOrPop E w) in
         let st := with_stash (Some s) (with_counter (counter (state w) + 1) (state w)) in
         applyOrPop E w
         = Throw (raised_by (stashApply E (repo_path r) (stashName s) remove)) w'
         /\ log w'
            = StashApply (repo_path r) (stashName s) remove
              :: Yielded (step st)
              :: Yielded (stash_step E (state w) r listing
                            "Choose a stash to apply to your working tree")
              :: log w
         /\ subcommand (state w') = chosen).
Proof.
  intros Hr Hv Hverb Hask step other.
  split; [|split].
  - intros st Hst. unfold step, other, applyOrPop_confirm_step, title_subtitle. cbn.
    rewrite Hst. destruct Hverb as [->| ->]; split; reflexivity.
  - intros l d dt chosen more rest Hs Hc Hin remove w'.
    assert (Hlt : (counter (state w) <? 3)%Z = false) by (apply Z.ltb_ge; lia).
    unfold w', remove, step, asks_to_confirm in *.
    unfold applyOrPop, function_, while_true. cbn [while_fuel]. unfold applyOrPop_body.
    unfold_monad.
    cbn -[Z.ltb confirm canConfirm canSkipConfirm skipConfirmKey applyOrPop_confirm_step].
    repeat (progress (rewrite ?Hs, ?Hlt, ?Hr, ?Hask, ?Hin;
      cbn -[Z.ltb confirm canConfirm canSkipConfirm skipConfirmKey applyOrPop_confirm_step])).
    destruct (stashApply E (repo_path r) (stashName s) (is_tag chosen "pop"));
      cbn; repeat split; reflexivity.
  - intros listing picked l d dt chosen more0 more rest Hpick Hl Hin remove w' st.
    unfold w', remove, step, st, asks_to_confirm in *.
    unfold applyOrPop, function_, while_true. cbn [while_fuel]. unfold applyOrPop_body.
    unfold_monad.
    cbn -[Z.ltb orb confirm canConfirm canSkipConfirm skipConfirmKey
          applyOrPop_confirm_step stash_step].
    repeat (progress (rewrite ?Hpick, ?Hr, ?Hl, ?Hask, ?Hin;
      cbn -[Z.ltb orb confirm canConfirm canSkipConfirm skipConfirmKey
            applyOrPop_confirm_step stash_step])).
    destruct (stashApply E (repo_path r) (stashName s) (is_tag chosen "pop"));
      cbn; repeat split; reflexivity.
Qed.

(** Entered as [apply], the user picks the second item, [Stash Pop]: the
    stash is applied and removed. *)
Lemma confirmation_switches_verb_witness :
  let E := Scenario.env [Scenario.work] (Some [Scenario.wip; Scenario.older]) in
  let known :=
    {| state :=
         {| counter := 3; confirm_override := None; subcommand := Some "apply";
            repo := Some Scenario.work; stash := Some Scenario.wip; message := None;
            uris := None; flags := None |};
       _subcommand := Some "apply";
       repos := Some [Scenario.work];
       pickedStash := None;
       inputs :=
         [Scenario.confirms 1
            (applyOrPop_confirm_step E
               {| counter := 3; confirm_override := None; subcommand := Some "apply";
                  repo := Some Scenario.work; stash := Some Scenario.wip; message := None;
                  uris := None; flags := None |}
               Scenario.work Scenario.wip)];
       log := [] |} in
  let step := applyOrPop_confirm_step E (state known) Scenario.work Scenario.wip in
  map command_of (menu step) = [Some "apply"; Some "pop"]
  /\ applyOrPop E known = Throw BreakQuickCommand (world_of (applyOrPop E known))
  /\ log (world_of (applyOrPop E known))
     = [StashApply "/work/app" "stash@{0}" true; Yielded step]
  /\ subcommand (state (world_of (applyOrPop E known))) = Some "pop".
Proof.
  intros E known step.
  destruct (confirmation_switches_verb E known Scenario.work Scenario.wip "apply"
              eq_refl eq_refl (or_introl eq_refl) eq_refl)
    as (Hmenu & Hcall & _).
  split; [exact (proj1 (Hmenu (state known) eq_refl))|].
  apply (Hcall "Stash Pop"
           (description_of_default (nth_error (menu step) 1))
           "Will delete stash@{0} and apply the changes to the working tree of app"
           (Some "pop") [] []).
  - reflexivity.
  - cbn. lia.
  - reflexivity.
Defined.

(** ** The message shown at confirmation time *)

Lemma substring_length (n : nat) (s : string) :
  String.length (substring 0 n s) = Nat.min n (String.length s).
Proof.
  revert s. induction n as [|n IH]; intros [|c s]; cbn; auto.
Qed.

Lemma substring_prefix (n : nat) (s : string) :
  String.prefix (substring 0 n s) s = true.
Proof.
  revert s. induction n as [|n IH]; intros [|c s]; cbn; auto.
  rewrite IH. now destruct (ascii_dec c c).
Qed.

(** C10: the confirmation step of [applyOrPop] has two items and that of
    [drop] has one, and each of them describes the stash by its name, the
    dash and its message: the whole message when it has at most 80 units,
    and otherwise its first 80 units followed by the ellipsis.  These are
    the steps the chains yield when they ask for the confirmation.  The
    stash kept in the state is the one that was known or picked, with its
    whole message. *)
Theorem confirmation_shows_message (E : Env) (st : State) (r : Repository)
    (s : GitStashCommit) :
  let msg := stash_message s in
  let head := substring 0 80 msg in
  let shown := (if (String.length msg <=? 80)%nat then msg else head ++ Ellipsis E)%string in
  let description := (stashName s ++ pad E (Dash E) 2 2 ++ shown)%string in
  map description_of (menu (applyOrPop_confirm_step E st r s))
  = [Some description; Some description]
  /\ map description_of (menu (drop_confirm_step E st r s)) = [Some description]
  /\ ((80 < String.length msg)%nat ->
      String.length head = 80%nat /\ String.prefix head msg = true)
  /\ (forall w : World,
         stash (state w) = Some s ->
         3 <= counter (state w) ->
         repo (state w) = Some r ->
         inputs w = [] ->
         (asks_to_confirm E w = true ->
          exists w', applyOrPop E w = Stop Suspended w'
            /\ log w' = Yielded (applyOrPop_confirm_step E (state w) r s) :: log w)
         /\ exists w', drop E w = Stop Suspended w'
            /\ log w' = Yielded (drop_confirm_step E (state w) r s) :: log w)
  /\ (forall (chain : M unit) (w : World),
         In chain [applyOrPop E; drop E] ->
         stash (state w) = Some s ->
         3 <= counter (state w) ->
         stash (state (world_of (chain w))) = Some s)
  /\ (forall (chain : M unit) (w : World) (listing : option (list GitStashCommit))
        (picked : bool) (more : list Item) (rest : list Selection),
         In chain [applyOrPop E; drop E] ->
         is_undefined (stash (state w)) || (counter (state w) <? 3)%Z = true ->
         repo (state w) = Some r ->
         getStashList E (repo_path r) = Returns listing ->
         inputs w = SelItems (CommitQuickPickItem s picked :: more) :: rest ->
         stash (state (world_of (chain w))) = Some s).
Proof.
  intros msg head shown description.
  assert (Hshown : shown_message E s = shown).
  { unfold shown_message, shown, head, msg.
    destruct (Nat.ltb_spec 80 (String.length (stash_message s)));
      destruct (Nat.leb_spec (String.length (stash_message s)) 80); auto; lia. }
  split; [|split; [|split; [|split; [|split]]]].
  - cbn. rewrite Hshown. reflexivity.
  - cbn. rewrite Hshown. reflexivity.
  - intros Hlong. unfold head. split; [|apply substring_prefix].
    rewrite substring_length. lia.
  - intros w Hs Hc Hr Hin.
    assert (Hlt : (counter (state w) <? 3)%Z = false) by (apply Z.ltb_ge; lia).
    split.
    + intros Hask. unfold asks_to_confirm in Hask.
      unfold applyOrPop, function_, while_true, bind. rewrite Hin. cbn [length while_fuel].
      unfold applyOrPop_body. unfold_monad.
      cbn -[Z.ltb confirm canConfirm canSkipConfirm skipConfirmKey applyOrPop_confirm_step].
      repeat (progress (rewrite ?Hs, ?Hlt, ?Hr, ?Hask, ?Hin;
        cbn -[Z.ltb confirm canConfirm canSkipConfirm skipConfirmKey applyOrPop_confirm_step])).
      eexists. split; reflexivity.
    + unfold drop, function_, while_true, bind. rewrite Hin. cbn [length while_fuel].
      unfold drop_body. unfold_monad.
      cbn -[Z.ltb drop_confirm_step].
      repeat (progress (rewrite ?Hs, ?Hlt, ?Hr, ?Hin; cbn -[Z.ltb drop_confirm_step])).
      eexists. split; reflexivity.
  - intros chain w Hin Hs Hc.
    assert (Hlt : (counter (state w) <? 3)%Z = false) by (apply Z.ltb_ge; lia).
    destruct Hin as [<-|[<-|[]]].
    + unfold applyOrPop, function_, while_true. cbn [while_fuel]. unfold applyOrPop_body.
      unfold_monad. cbn -[Z.ltb]. rewrite Hs, Hlt. cbn.
      repeat (rewrite ?Hs; cbn; try split_match); try reflexivity; congruence.
    + unfold drop, function_, while_true. cbn [while_fuel]. unfold drop_body.
      unfold_monad. cbn -[Z.ltb]. rewrite Hs, Hlt. cbn.
      repeat (rewrite ?Hs; cbn; try split_match); try reflexivity; congruence.
  - intros chain w listing picked more rest Hin Hask Hr Hl Hi.
    destruct Hin as [<-|[<-|[]]].
    + unfold applyOrPop, function_, while_true. cbn [while_fuel]. unfold applyOrPop_body.
      unfold_monad. cbn -[Z.ltb orb]. rewrite Hask. cbn -[Z.ltb orb].
      rewrite Hr. cbn -[Z.ltb orb]. rewrite Hl, Hi. cbn.
      repeat (split_match; cbn); try reflexivity; congruence.
    + unfold drop, function_, while_true. cbn [while_fuel]. unfold drop_body.
      unfold_monad. cbn -[Z.ltb orb]. rewrite Hask. cbn -[Z.ltb orb].
      rewrite Hr. cbn -[Z.ltb orb]. rewrite Hl, Hi. cbn.
      repeat (split_match; cbn); try reflexivity; congruence.
Qed.

(** A message of 91 units is cut after the 80th, in the confirmation of
    [pop] and in that of [drop]; a short one is shown whole; the state keeps
    the whole message in both cases. *)
Lemma confirmation_shows_message_witness :
  let E := Scenario.env [Scenario.work] (Some [Scenario.verbose; Scenario.wip]) in
  let st (tag : string) := initial_state (constructor (Scenario.only tag)) in
  let known (tag : string) (s : GitStashCommit) (answers : list Selection) :=
    {| state := with_counter 3 (with_stash (Some s) (with_repo (Some Scenario.work) (st tag)));
       _subcommand := Some tag; repos := Some [Scenario.work]; pickedStash := None;
       inputs := answers; log := [] |} in
  let asked (tag : string) :=
    {| state := with_counter 2 (with_repo (Some Scenario.work) (st tag));
       _subcommand := Some tag; repos := Some [Scenario.work]; pickedStash := None;
       inputs := [Scenario.picks Scenario.verbose]; log := [] |} in
  let cut :=
    "stash@{2}  -  On main: rewrite the tokenizer so that nested template literals keep their sourc~" in
  map description_of (menu (applyOrPop_confirm_step E (st "pop") Scenario.work Scenario.verbose))
  = [Some cut; Some cut]
  /\ map description_of (menu (applyOrPop_confirm_step E (st "apply") Scenario.work Scenario.wip))
     = [Some "stash@{0}  -  WIP on main"; Some "stash@{0}  -  WIP on main"]
  /\ map description_of (menu (drop_confirm_step E (st "drop") Scenario.work Scenario.verbose))
     = [Some cut]
  /\ map description_of (menu (drop_confirm_step E (st "drop") Scenario.work Scenario.wip))
     = [Some "stash@{0}  -  WIP on main"]
  /\ String.length (substring 0 80 (stash_message Scenario.verbose)) = 80%nat
  /\ (exists w', applyOrPop E (known "apply" Scenario.verbose []) = Stop Suspended w'
        /\ log w'
           = [Yielded (applyOrPop_confirm_step E (state (known "apply" Scenario.verbose []))
                         Scenario.work Scenario.verbose)])
  /\ (exists w', drop E (known "drop" Scenario.verbose []) = Stop Suspended w'
        /\ log w'
           = [Yielded (drop_confirm_step E (state (known "drop" Scenario.verbose []))
                         Scenario.work Scenario.verbose)])
  /\ stash (state (world_of (applyOrPop E (known "pop" Scenario.verbose [SelDirective Back]))))
     = Some Scenario.verbose
  /\ stash (state (world_of (drop E (asked "drop")))) = Some Scenario.verbose.
Proof.
  intros E st known asked cut.
  destruct (confirmation_shows_message E (st "pop") Scenario.work Scenario.verbose)
    as (Hpop & _ & Hcut & _ & Hkept & _).
  destruct (confirmation_shows_message E (st "apply") Scenario.work Scenario.wip)
    as (Hshort & _).
  destruct (confirmation_shows_message E (st "drop") Scenario.work Scenario.verbose)
    as (_ & Hdrop & _ & Hyield & _ & Hpicked).
  destruct (confirmation_shows_message E (st "drop") Scenario.work Scenario.wip)
    as (_ & Hbrief & _).
  split; [|split; [|split; [|split; [|split; [|split; [|split; [|split]]]]]]].
  - exact Hpop.
  - exact Hshort.
  - exact Hdrop.
  - exact Hbrief.
  - apply Hcut. vm_compute. lia.
  - refine (proj1 (Hyield (known "apply" Scenario.verbose []) eq_refl _ eq_refl eq_refl) eq_refl).
    cbn. lia.
  - refine (proj2 (Hyield (known "drop" Scenario.verbose []) eq_refl _ eq_refl eq_refl)).
    cbn. lia.
  - apply (Hkept (applyOrPop E) (known "pop" Scenario.verbose [SelDirective Back])).
    + now left.
    + reflexivity.
    + cbn. lia.
  - apply (Hpicked (drop E) (asked "drop") (Some [Scenario.verbose; Scenario.wip]) false [] []).
    + right. now left.
    + reflexivity.
    + reflexivity.
    + reflexivity.
    + reflexivity.
Defined.

(** ** The initial counter *)

(** C6, as the code has it: the initial counter is the number of populated
    fields among the subcommand, the repository and the stash or message of
    the subcommand, wherever they stand; it is the number of leading
    populated fields when the populated fields form a prefix of the step
    order.  Then, where the repositories and the stashes can be listed, the
    first step of the wizard is the step of the first field that is not
    populated: the subcommand step, the repository step, or the stash or
    message step of the subcommand; with all three populated nothing but a
    confirmation is yielded.  There is one exception: with the subcommand
    alone and exactly one repository, the repository step is skipped too
    and the wizard starts at the stash or message step. *)
Theorem initial_counter_counts_populated (confirm : option bool) (s : PartialState) :
  let args := Some {| args_state := Some s; args_confirm := confirm |} in
  let count (b : bool) := if b then 1 else 0 in
  exists st,
    constructor args = Some st
    /\ counter st
       = count (populated (p_subcommand s)) + count (populated (p_repo s))
         + count (third_populated s)
    /\ (populated_in_order s = true -> counter st = leading_populated s)
    /\ (populated_in_order s = true ->
        forall (E : Env) (rs : list Repository) (active : option Repository)
               (listing : Repository -> option (list GitStashCommit)),
          (forall tag, p_subcommand s = Some tag ->
                       In tag ["apply"; "drop"; "list"; "pop"; "push"]) ->
          getOrderedRepositories E = Returns rs ->
          getActiveRepository E = Returns active ->
          (forall r, getStashList E (repo_path r) = Returns (listing r)) ->
          let third (st : State) (r : Repository) :=
            if is_tag (subcommand st) "push" then push_message_step E st r
            else if is_tag (subcommand st) "list" then list_step E st r (listing r) None
            else stash_step E st r (listing r)
                   (if is_tag (subcommand st) "drop" then "Choose a stash to delete"
                    else "Choose a stash to apply to your working tree") in
          let shown := history (world_of (run E args [])) in
          match leading_populated s with
          | 0 => shown = [Yielded (subcommand_step st)]
          | 1 =>
              match rs with
              | [only] =>
                  shown = [Yielded (third (with_repo (Some only) (with_counter 2 st)) only)]
              | _ => shown = [Yielded (repository_step st rs active)]
              end
          | 2 => exists r, p_repo s = Some r /\ shown = [Yielded (third st r)]
          | _ => forall e, In e shown -> is_yield e = true ->
                           exists c, e = Yielded (Confirm c)
          end).
Proof.
  intros args count. eexists. split; [reflexivity|]. split; [|split].
  - cbn. unfold third_populated, populated, count.
    destruct (p_subcommand s) as [tag|], (p_repo s), (p_stash s), (p_message s); cbn;
      repeat match goal with
             | |- context [String.eqb ?a ?b] => destruct (String.eqb a b); cbn
             end; reflexivity.
  - cbn. unfold leading_populated, populated_in_order, third_populated, populated.
    destruct (p_subcommand s) as [tag|], (p_repo s), (p_stash s), (p_message s); cbn;
      repeat match goal with
             | |- context [String.eqb ?a ?b] => destruct (String.eqb a b); cbn
             end;
      try reflexivity; try discriminate; intros _; reflexivity.
  - intros Horder E rs active listing Htag Hrs Hact Hl. cbv zeta.
    unfold args. clear args.
    destruct s as [sub seeded st0 msg files fl].
    unfold leading_populated, populated_in_order, third_populated, populated in *.
    cbn [p_subcommand p_repo p_stash p_message p_uris p_flags] in *.
    destruct sub as [tag|].
    + destruct (Htag tag eq_refl) as [<-|[<-|[<-|[<-|[<-|[]]]]]]; clear Htag;
        (destruct seeded as [r|]; [|destruct rs as [|r0 [|r1 rs']]]);
        destruct st0 as [c|], msg as [m|];
        cbn in Horder; try discriminate Horder; clear Horder;
        cbn [is_tag is_undefined negb orb String.eqb Ascii.eqb Bool.eqb].
      all: unfold run, steps, function_, return_, while_true, history;
        cbn [start inputs length while_fuel constructor args_state];
        unfold try_catch, steps_try, choose_subcommand, ordered_repositories,
          choose_repository, dispatch, step_back_over_repository;
        unfold applyOrPop, drop, StashGitCommand.list, push, function_, while_true;
        cbn [while_fuel];
        unfold applyOrPop_body, drop_body, list_body, push_body, steps_catch, classify;
        unfold_monad;
        cbn -[stash_step list_step push_message_step subcommand_step repository_step];
        repeat (progress (rewrite ?Hrs, ?Hact, ?Hl;
          cbn -[stash_step list_step push_message_step subcommand_step repository_step])).
      all: try reflexivity.
      all: try (eexists; split; reflexivity).
      all: repeat (split_match;
             cbn -[stash_step list_step push_message_step subcommand_step repository_step]).
      all: try (eexists; split; reflexivity).
      all: intros e Hin Hy;
        repeat (destruct Hin as [<-|Hin];
                [first [discriminate Hy | eexists; reflexivity]|]); contradiction.
    + clear Htag. unfold run, steps, function_, return_, while_true, history;
        cbn [start inputs length while_fuel constructor args_state];
        unfold try_catch, steps_try, choose_subcommand. unfold_monad.
      cbn -[subcommand_step]. reflexivity.
Qed.

(** The caller knows the subcommand and the repository, among two: the
    wizard starts at the message.  The caller knows the subcommand only and
    there is one repository: the wizard starts at the stash. *)
Lemma initial_counter_counts_populated_witness :
  let s :=
    {| p_subcommand := Some "push"; p_repo := Some Scenario.work; p_stash := None;
       p_message := None; p_uris := None; p_flags := None |} in
  let stashes := Some [Scenario.wip; Scenario.older] in
  (exists st,
      constructor (Some {| args_state := Some s; args_confirm := None |}) = Some st
      /\ counter st = 2
      /\ counter st = leading_populated s
      /\ history
           (world_of
              (run (Scenario.env [Scenario.work; Scenario.docs] stashes)
                 (Some {| args_state := Some s; args_confirm := None |}) []))
         = [Yielded
              (push_message_step (Scenario.env [Scenario.work; Scenario.docs] stashes) st
                 Scenario.work)])
  /\ (exists st,
         constructor (Scenario.only "drop") = Some st
         /\ counter st = 1
         /\ history
              (world_of (run (Scenario.env [Scenario.work] stashes) (Scenario.only "drop") []))
            = [Yielded
                 (stash_step (Scenario.env [Scenario.work] stashes)
                    (with_repo (Some Scenario.work) (with_counter 2 st)) Scenario.work
                    stashes "Choose a stash to delete")]).
Proof.
  intros s stashes. split.
  - destruct (initial_counter_counts_populated None s) as (st & Hst & Hcount & Hlead & Hrun).
    exists st. split; [exact Hst|]. split; [exact Hcount|]. split; [exact (Hlead eq_refl)|].
    specialize (Hrun eq_refl (Scenario.env [Scenario.work; Scenario.docs] stashes)
                  [Scenario.work; Scenario.docs] None (fun _ => stashes)).
    cbn in Hst. injection Hst as <-.
    destruct Hrun as (r & Hr & Hshown).
    + intros tag Htag. injection Htag as <-. cbn. tauto.
    + reflexivity.
    + reflexivity.
    + reflexivity.
    + cbn in Hr. injection Hr as <-. exact Hshown.
  - destruct (initial_counter_counts_populated None
                {| p_subcommand := Some "drop"; p_repo := None; p_stash := None;
                   p_message := None; p_uris := None; p_flags := None |})
      as (st & Hst & Hcount & _ & Hrun).
    exists st. split; [exact Hst|]. split; [exact Hcount|].
    specialize (Hrun eq_refl (Scenario.env [Scenario.work] stashes)
                  [Scenario.work] None (fun _ => stashes)).
    cbn in Hst. injection Hst as <-.
    apply Hrun.
    + intros tag Htag. injection Htag as <-. cbn. tauto.
    + reflexivity.
    + reflexivity.
    + reflexivity.
Defined.

(** C6 as stated fails when a later field is populated and an earlier one
    is not: with the subcommand and the stash known and the repository
    unknown, one leading field is populated and the counter is 2; the
    repository is asked for and the stash step, which is not a leading one,
    is skipped. *)
Lemma initial_counter_not_leading :
  let s :=
    {| p_subcommand := Some "drop"; p_repo := None; p_stash := Some Scenario.wip;
       p_message := None; p_uris := None; p_flags := None |} in
  let args := Some {| args_state := Some s; args_confirm := None |} in
  let E := Scenario.env [Scenario.work; Scenario.docs] (Some [Scenario.wip; Scenario.older]) in
  let r := run E args [resolve (RepositoryQuickPickItem Scenario.work false)] in
  leading_populated s = 1
  /\ option_map counter (constructor args) = Some 2
  /\ option_map counter (constructor args) <> Some (leading_populated s)
  /\ history (world_of r)
     = [ Yielded (repository_step (initial_state (constructor args))
                    [Scenario.work; Scenario.docs] None);
         Yielded (drop_confirm_step E
                    (with_counter 3 (with_repo (Some Scenario.work)
                                       (initial_state (constructor args))))
                    Scenario.work Scenario.wip) ].
Proof. vm_compute. repeat split; try reflexivity. discriminate. Qed.

(** ** An empty stash list *)

(** In any world where the chain is about to show its stash step and there
    is no stash, the step offers the two directives [Back] and [Cancel] and
    nothing else; answering [Back] makes the chain return to [steps] with
    nothing but that step logged, and [steps] goes round its loop again. *)
Lemma back_at_an_empty_stash_step (E : Env) (w : World) (r : Repository)
    (tag : string) (rest : list Selection) :
  In tag ["apply"; "pop"; "drop"; "list"] ->
  subcommand (state w) = Some tag ->
  repo (state w) = Some r ->
  getStashList E (repo_path r) = Returns None ->
  (tag <> "list" -> is_undefined (stash (state w)) || (counter (state w) <? 3)%Z = true) ->
  inputs w = resolve (DirectiveQuickPickItem Back true) :: rest ->
  exists step w',
    menu step = [DirectiveQuickPickItem Back true; DirectiveQuickPickItem Cancel false]
    /\ dispatch E w = Ok tt w'
    /\ log w' = Yielded step :: log w
    /\ inputs w' = rest
    /\ forall rs, exists w'',
        (dispatch E ;; step_back_over_repository rs) w = Jumps JContinue w''
        /\ log w'' = log w'.
Proof.
  intros Htag Hsub Hr Hl Hask Hin.
  assert (Hrest : forall (w1 : World) (rs : list Repository), exists w'',
             (step_back_over_repository rs) w1 = Jumps JContinue w''
             /\ log w'' = log w1).
  { intros w1 rs. unfold step_back_over_repository. unfold_monad.
    destruct (length rs =? 1)%nat; cbn; eexists; split; reflexivity. }
  assert (Hchain : exists step w',
             menu step = [DirectiveQuickPickItem Back true; DirectiveQuickPickItem Cancel false]
             /\ dispatch E w = Ok tt w'
             /\ log w' = Yielded step :: log w
             /\ inputs w' = rest).
  { destruct Htag as [<-|[<-|[<-|[<-|[]]]]].
    - specialize (Hask ltac:(discriminate)).
      exists (stash_step E (state w) r None "Choose a stash to apply to your working tree").
      unfold dispatch, bind at 1, get_state. rewrite Hsub.
      cbn [is_tag String.eqb Ascii.eqb Bool.eqb orb].
      unfold applyOrPop, function_, while_true. cbn [while_fuel]. unfold applyOrPop_body.
      unfold_monad. cbn -[Z.ltb orb stash_step]. rewrite Hask. cbn -[Z.ltb orb stash_step].
      rewrite Hr. cbn -[Z.ltb orb stash_step]. rewrite Hl, Hin. cbn -[stash_step].
      eexists. repeat split.
    - specialize (Hask ltac:(discriminate)).
      exists (stash_step E (state w) r None "Choose a stash to apply to your working tree").
      unfold dispatch, bind at 1, get_state. rewrite Hsub.
      cbn [is_tag String.eqb Ascii.eqb Bool.eqb orb].
      unfold applyOrPop, function_, while_true. cbn [while_fuel]. unfold applyOrPop_body.
      unfold_monad. cbn -[Z.ltb orb stash_step]. rewrite Hask. cbn -[Z.ltb orb stash_step].
      rewrite Hr. cbn -[Z.ltb orb stash_step]. rewrite Hl, Hin. cbn -[stash_step].
      eexists. repeat split.
    - specialize (Hask ltac:(discriminate)).
      exists (stash_step E (state w) r None "Choose a stash to delete").
      unfold dispatch, bind at 1, get_state. rewrite Hsub.
      cbn [is_tag String.eqb Ascii.eqb Bool.eqb orb].
      unfold drop, function_, while_true. cbn [while_fuel]. unfold drop_body.
      unfold_monad. cbn -[Z.ltb orb stash_step]. rewrite Hask. cbn -[Z.ltb orb stash_step].
      rewrite Hr. cbn -[Z.ltb orb stash_step]. rewrite Hl, Hin. cbn -[stash_step].
      eexists. repeat split.
    - exists (list_step E (state w) r None None).
      unfold dispatch, bind at 1, get_state. rewrite Hsub.
      cbn [is_tag String.eqb Ascii.eqb Bool.eqb orb].
      unfold StashGitCommand.list, function_, while_true. cbn [while_fuel]. unfold list_body.
      unfold_monad. cbn -[Z.ltb orb list_step].
      rewrite Hr. cbn -[Z.ltb orb list_step]. rewrite Hl, Hin. cbn -[list_step].
      eexists. repeat split. }
  destruct Hchain as (step & w' & Hm & Hd & Hlog & Hi).
  exists step, w'. repeat split; auto.
  intros rs. unfold bind. rewrite Hd. apply Hrest.
Qed.

(** One round of a loop. *)
Lemma while_fuel_unfold (n : nat) (body : M unit) (w : World) :
  while_fuel (S n) body w
  = match body w with
    | Ok _ w' | Jumps JContinue w' => while_fuel n body w'
    | Jumps JBreak w' => Ok tt w'
    | r => r
    end.
Proof. reflexivity. Qed.

(** One round of [steps] through a chain that has a stash step. *)
Ltac one_round :=
  unfold try_catch, steps_try, choose_subcommand, ordered_repositories,
    choose_repository, dispatch, step_back_over_repository;
  unfold applyOrPop, drop, StashGitCommand.list, function_, while_true;
  unfold applyOrPop_body, drop_body, list_body; unfold_monad.

(** C7, as the code has it: the wizard is started with the subcommand
    [apply], [pop], [drop] or [list] and no stash, the repository being
    given, the only one, or picked at the repository step, and that
    repository has no stash.  The stash step then offers the two directives
    [Back] and [Cancel] and nothing else.  When it is answered [Back], no
    terminal call is made and the wizard does not end: [steps] goes round
    its loop and yields the subcommand step, with the counter at 0, when
    there is exactly one repository, and the repository step, with the
    counter at 1 and the repository of the chain marked, otherwise; there
    the wizard waits for the next answer. *)
Theorem empty_listing_offers_directives (E : Env) (tag : string)
    (override : option bool) (seeded : option Repository) (message : option string)
    (files : option (list Uri)) (fl : option (list PushFlags))
    (rs : list Repository) (active : option Repository) (r : Repository)
    (marked : bool) :
  In tag ["apply"; "pop"; "drop"; "list"] ->
  getOrderedRepositories E = Returns rs ->
  getActiveRepository E = Returns active ->
  getStashList E (repo_path r) = Returns None ->
  seeded = Some r \/ (seeded = None /\ In r rs) ->
  let args :=
    Some {| args_state :=
              Some {| p_subcommand := Some tag; p_repo := seeded; p_stash := None;
                      p_message := message; p_uris := files; p_flags := fl |};
            args_confirm := override |} in
  let single := (length rs =? 1)%nat in
  let asks_repository := is_undefined seeded && negb single in
  let answers :=
    (if asks_repository then [resolve (RepositoryQuickPickItem r marked)] else [])
    ++ [resolve (DirectiveQuickPickItem Back true)] in
  let result := run E args answers in
  exists step st,
    result = Stop Suspended (world_of result)
    /\ history (world_of result)
       = (if asks_repository
          then [Yielded (repository_step (initial_state (constructor args)) rs active)]
          else [])
         ++ [Yielded step;
             Yielded (if single then subcommand_step st else repository_step st rs (Some r))]
    /\ menu step = [DirectiveQuickPickItem Back true; DirectiveQuickPickItem Cancel false]
    /\ counter st = (if single then 0 else 1)
    /\ existsb terminal (log (world_of result)) = false.
Proof.
  intros Htag Hrs Hact Hl Hr. cbv zeta.
  assert (Hshape :
    (exists r0, seeded = Some r /\ rs = [r0])
    \/ (seeded = Some r /\ (length rs =? 1)%nat = false)
    \/ (seeded = None /\ rs = [r])
    \/ (seeded = None /\ (length rs =? 1)%nat = false)).
  { destruct Hr as [->|[-> Hin]].
    - destruct rs as [|r0 [|r1 rs']]; [right; left; auto|left; eauto|right; left; auto].
    - destruct rs as [|r0 [|r1 rs']]; [contradiction| |right; right; right; auto].
      destruct Hin as [->|[]]. right. right. left. auto. }
  destruct Htag as [<-|[<-|[<-|[<-|[]]]]];
    destruct Hshape as [(r0 & -> & ->)|[(-> & Hn)|[(-> & ->)|(-> & Hn)]]].
  all: rewrite ?Hn; cbn [is_undefined andb negb length Nat.eqb app resolve].
  all: match goal with
       | |- context [world_of ?res] => eassert (Hrun : res = Stop Suspended _)
       end;
    [ unfold run, steps, function_, bind, return_, while_true;
      cbn [inputs start length];
      rewrite while_fuel_unfold;
      match goal with
      | |- context [match ?b ?w with _ => _ end] =>
          eassert (H1 : b w = Jumps JContinue _);
          [ one_round;
            cbn -[stash_step list_step subcommand_step repository_step];
            repeat (progress (rewrite ?Hrs, ?Hact, ?Hl, ?Hn;
              cbn -[stash_step list_step subcommand_step repository_step]));
            reflexivity
          | rewrite H1; clear H1 ]
      end;
      rewrite while_fuel_unfold;
      match goal with
      | |- context [match ?b ?w with _ => _ end] =>
          eassert (H2 : b w = Stop Suspended _);
          [ one_round;
            cbn -[stash_step list_step subcommand_step repository_step];
            repeat (progress (rewrite ?Hrs, ?Hact, ?Hl, ?Hn;
              cbn -[stash_step list_step subcommand_step repository_step]));
            reflexivity
          | rewrite H2; reflexivity ]
      end
    | rewrite Hrun; clear Hrun ].
  all: unfold history; cbn -[stash_step list_step subcommand_step repository_step];
       do 2 eexists; (split; [reflexivity|]); (split; [reflexivity|]);
       repeat split; reflexivity.
Qed.

(** No stash in the only repository: [list] offers [Back] and [Cancel], and
    after [Back] the subcommand is asked for.  No stash in the repository
    picked among two: [drop] offers [Back] and [Cancel], and after [Back]
    the repository is asked for again. *)
Lemma empty_listing_offers_directives_witness :
  let back := resolve (DirectiveQuickPickItem Back true) in
  let both := [Scenario.work; Scenario.docs] in
  let alone := run (Scenario.env [Scenario.work] None) (Scenario.only "list") [back] in
  let among :=
    run (Scenario.env both None) (Scenario.only "drop")
      [resolve (RepositoryQuickPickItem Scenario.docs false); back] in
  (exists step st,
      alone = Stop Suspended (world_of alone)
      /\ history (world_of alone) = [Yielded step; Yielded (subcommand_step st)]
      /\ menu step = [DirectiveQuickPickItem Back true; DirectiveQuickPickItem Cancel false]
      /\ counter st = 0
      /\ existsb terminal (log (world_of alone)) = false)
  /\ (exists step st,
      among = Stop Suspended (world_of among)
      /\ history (world_of among)
         = [Yielded (repository_step (initial_state (constructor (Scenario.only "drop")))
                       both None);
            Yielded step;
            Yielded (repository_step st both (Some Scenario.docs))]
      /\ menu step = [DirectiveQuickPickItem Back true; DirectiveQuickPickItem Cancel false]
      /\ counter st = 1
      /\ existsb terminal (log (world_of among)) = false).
Proof.
  intros back both alone among. split.
  - apply (empty_listing_offers_directives (Scenario.env [Scenario.work] None) "list"
             None None None None None [Scenario.work] None Scenario.work false).
    + right. right. right. now left.
    + reflexivity.
    + reflexivity.
    + reflexivity.
    + right. split; [reflexivity|]. now left.
  - apply (empty_listing_offers_directives (Scenario.env both None) "drop"
             None None None None None both None Scenario.docs false).
    + right. right. now left.
    + reflexivity.
    + reflexivity.
    + reflexivity.
    + right. split; [reflexivity|]. right. now left.
Defined.

(** C7 as stated fails on its last part: invoked with [list] where there is
    no stash, the wizard shows the two directives, and when [Back] is
    chosen it does not end; it yields the subcommand step and waits for
    the answer.  No terminal call is made. *)
Lemma back_from_empty_listing_goes_on :
  let E := Scenario.env [Scenario.work] None in
  let args := Scenario.only "list" in
  let r := run E args [resolve (DirectiveQuickPickItem Back true)] in
  let asked := with_counter 2 (with_repo (Some Scenario.work) (initial_state (constructor args))) in
  r = Stop Suspended (world_of r)
  /\ (forall w', r <> Ok tt w')
  /\ history (world_of r)
     = [ Yielded (list_step E asked Scenario.work None None);
         Yielded (subcommand_step (with_counter 0 asked)) ]
  /\ menu (list_step E asked Scenario.work None None)
     = [DirectiveQuickPickItem Back true; DirectiveQuickPickItem Cancel false]
  /\ existsb terminal (log (world_of r)) = false.
Proof. vm_compute. repeat split; try reflexivity. intros w'. discriminate. Qed.

(** ** A push seeded with an empty message and a file *)

(** C8: the constructor counts the empty message as set.  Started with the
    subcommand [push], the message [''] and one or more files, with or
    without the repository, and with confirmations on, the push chain
    yields no message step: when the repository is given or there is a
    single one, the first step of the run is the confirmation, and
    otherwise it is the first step after the repository was chosen.  The
    confirmation offers two items, the plain push and the one that keeps
    the index, and for a single file their details name its formatted
    path. *)
Theorem seeded_push_skips_message (E : Env) (fileA : Uri) (others : list Uri)
    (override : option bool) (given : option Repository) (r : Repository) :
  let seed :=
    {| p_subcommand := Some "push"; p_repo := given; p_stash := None;
       p_message := Some ""; p_uris := Some (fileA :: others); p_flags := None |} in
  let args := Some {| args_state := Some seed; args_confirm := override |} in
  let st :=
    with_flags (Some [])
      (with_repo (Some r) (with_counter 3 (initial_state (constructor args)))) in
  let step := push_confirm_step E st r [] in
  QuickCommandBase.confirm (canConfirm (Some "push")) (canSkipConfirm E (Some "push"))
    (skipConfirmKey E (Some "push")) (skipConfirmations E) override = true ->
  option_map counter (constructor args) = Some (if is_undefined given then 2 else 3)
  /\ (forall rs : list Repository,
         getOrderedRepositories E = Returns rs ->
         given = Some r \/ (given = None /\ rs = [r]) ->
         run E args [] = Stop Suspended (world_of (run E args []))
         /\ history (world_of (run E args [])) = [Yielded step])
  /\ (forall (rs : list Repository) (active : option Repository) (picked : bool)
        (more : list Item),
         given = None ->
         getOrderedRepositories E = Returns rs ->
         (length rs =? 1)%nat = false ->
         getActiveRepository E = Returns active ->
         let answers := [SelItems (RepositoryQuickPickItem r picked :: more)] in
         run E args answers = Stop Suspended (world_of (run E args answers))
         /\ history (world_of (run E args answers))
            = [Yielded (repository_step (initial_state (constructor args)) rs active);
               Yielded step])
  /\ map flags_of (menu step) = [[]; [KeepIndex]]
  /\ map label_of (menu step) = ["Stash Push"; "Stash Push & Keep Staged"]
  /\ map description_of (menu step) = [Some ""; Some "--keep-index "]
  /\ (others = [] ->
      map detail_of (menu step)
      = [ ("Will stash changes in " ++ getFormattedPath E fileA (repo_path r))%string;
          ("Will stash changes in " ++ getFormattedPath E fileA (repo_path r)
           ++ ", but will keep staged files intact")%string ]).
Proof.
  intros seed args st step Hask.
  split; [now destruct given|]. split; [|split].
  - intros rs Hrs [Hgiven|[Hgiven Hone]]; unfold st, step, args, seed; rewrite Hgiven.
    + unfold run, steps, function_, while_true, history.
      cbn [start inputs length while_fuel].
      unfold try_catch, steps_try, choose_subcommand, ordered_repositories,
        choose_repository, dispatch, step_back_over_repository.
      unfold_monad.
      cbn -[QuickCommandBase.confirm canConfirm canSkipConfirm skipConfirmKey push
            push_confirm_step].
      rewrite Hrs.
      cbn -[QuickCommandBase.confirm canConfirm canSkipConfirm skipConfirmKey push
            push_confirm_step].
      unfold push, function_, while_true. cbn [while_fuel]. unfold push_body.
      unfold_monad.
      cbn -[QuickCommandBase.confirm canConfirm canSkipConfirm skipConfirmKey
            push_confirm_step].
      rewrite Hask. cbn -[push_confirm_step]. split; reflexivity.
    + subst rs. unfold run, steps, function_, while_true, history.
      cbn [start inputs length while_fuel].
      unfold try_catch, steps_try, choose_subcommand, ordered_repositories,
        choose_repository, dispatch, step_back_over_repository.
      unfold_monad.
      cbn -[QuickCommandBase.confirm canConfirm canSkipConfirm skipConfirmKey push
            push_confirm_step].
      rewrite Hrs.
      cbn -[QuickCommandBase.confirm canConfirm canSkipConfirm skipConfirmKey push
            push_confirm_step].
      unfold push, function_, while_true. cbn [while_fuel]. unfold push_body.
      unfold_monad.
      cbn -[QuickCommandBase.confirm canConfirm canSkipConfirm skipConfirmKey
            push_confirm_step].
      rewrite Hask. cbn -[push_confirm_step]. split; reflexivity.
  - intros rs active picked more Hgiven Hrs Hlen Hactive answers.
    unfold st, step, args, seed; rewrite Hgiven.
    unfold answers, run, steps, function_, while_true, history.
    cbn [start inputs length while_fuel].
    unfold try_catch, steps_try, choose_subcommand, ordered_repositories,
      choose_repository, dispatch, step_back_over_repository.
    unfold_monad.
    cbn -[QuickCommandBase.confirm canConfirm canSkipConfirm skipConfirmKey push
          push_confirm_step repository_step Nat.eqb].
    rewrite Hrs.
    cbn -[QuickCommandBase.confirm canConfirm canSkipConfirm skipConfirmKey push
          push_confirm_step repository_step Nat.eqb].
    rewrite Hlen, Hactive.
    cbn -[QuickCommandBase.confirm canConfirm canSkipConfirm skipConfirmKey push
          push_confirm_step repository_step Nat.eqb].
    unfold push, function_, while_true. cbn [while_fuel]. unfold push_body.
    unfold_monad.
    cbn -[QuickCommandBase.confirm canConfirm canSkipConfirm skipConfirmKey
          push_confirm_step repository_step].
    rewrite Hask. cbn -[push_confirm_step repository_step]. split; reflexivity.
  - repeat split. intros ->. reflexivity.
Qed.

(** A push of one file in the only repository, and in one of two. *)
Lemma seeded_push_skips_message_witness :
  let file := "/work/app/src/lexer.ts" in
  let seed :=
    {| p_subcommand := Some "push"; p_repo := None; p_stash := None;
       p_message := Some ""; p_uris := Some [file]; p_flags := None |} in
  let args := Some {| args_state := Some seed; args_confirm := None |} in
  let E1 := Scenario.env [Scenario.work] None in
  let E2 := Scenario.env [Scenario.work; Scenario.docs] None in
  let answers := [SelItems [RepositoryQuickPickItem Scenario.work false]] in
  let st :=
    with_flags (Some [])
      (with_repo (Some Scenario.work) (with_counter 3 (initial_state (constructor args)))) in
  history (world_of (run E1 args [])) = [Yielded (push_confirm_step E1 st Scenario.work [])]
  /\ history (world_of (run E2 args answers))
     = [Yielded (repository_step (initial_state (constructor args))
                   [Scenario.work; Scenario.docs] None);
        Yielded (push_confirm_step E2 st Scenario.work [])]
  /\ map detail_of (menu (push_confirm_step E1 st Scenario.work []))
     = ["Will stash changes in /work/app/src/lexer.ts";
        "Will stash changes in /work/app/src/lexer.ts, but will keep staged files intact"].
Proof.
  intros file seed args E1 E2 answers st.
  destruct (seeded_push_skips_message E1 file [] None None Scenario.work eq_refl)
    as (_ & Hone & _ & _ & _ & _ & Hdetail).
  destruct (seeded_push_skips_message E2 file [] None None Scenario.work eq_refl)
    as (_ & _ & Hmany & _).
  split; [exact (proj2 (Hone _ eq_refl (or_intror (conj eq_refl eq_refl))))|].
  split; [exact (proj2 (Hmany _ None false [] eq_refl eq_refl eq_refl eq_refl))|].
  exact (Hdetail eq_refl).
Defined.

(** ** A single repository *)

(** C5, as the code has it.  With one repository [r]:
    - the repository step of [steps] returns without yielding anything; when
      the repository is unset or the counter is below 2 it selects [r] and
      raises the counter by one, and otherwise it leaves the state alone;
    - when the chain returns, the counter is lowered by one and the loop
      goes round again;
    - so in a round that selected the repository, the counter changes by
      what the chain changed and nothing else;
    - and when the first step of a chain entered with the counter at 1 is
      answered [Back], the next step yielded is the subcommand step, with
      the counter at 0. *)
Theorem single_repository_is_auto_selected (E : Env) (r : Repository) :
  (forall w : World,
      exists w',
        choose_repository E [r] w = Ok tt w'
        /\ log w' = log w /\ inputs w' = inputs w
        /\ state w'
           = if is_undefined (repo (state w)) || (counter (state w) <? 2)%Z
             then with_repo (Some r) (with_counter (counter (state w) + 1) (state w))
             else state w)
  /\ (forall w w2 : World,
         dispatch E w = Ok tt w2 ->
         exists w3,
           (dispatch E ;; step_back_over_repository [r]) w = Jumps JContinue w3
           /\ state w3 = with_counter (counter (state w2) - 1) (state w2)
           /\ log w3 = log w2)
  /\ (forall (w w1 w2 : World),
         populated (subcommand (state w)) = true ->
         1 <= counter (state w) ->
         repos w = Some [r] ->
         is_undefined (repo (state w)) || (counter (state w) <? 2)%Z = true ->
         choose_repository E [r] (world_of (set__subcommand (subcommand (state w)) w))
         = Ok tt w1 ->
         dispatch E w1 = Ok tt w2 ->
         exists w3,
           steps_try E w = Jumps JContinue w3
           /\ counter (state w1) = counter (state w) + 1
           /\ counter (state w3) = counter (state w2) - 1
           /\ counter (state w3) - counter (state w)
              = counter (state w2) - counter (state w1))
  /\ (forall (tag : string) (listing : option (list GitStashCommit)),
         In tag ["apply"; "pop"; "drop"; "list"; "push"] ->
         getOrderedRepositories E = Returns [r] ->
         getStashList E (repo_path r) = Returns listing ->
         let result := run E (Scenario.only tag) [SelDirective Back] in
         exists first st,
           result = Stop Suspended (world_of result)
           /\ history (world_of result) = [Yielded first; Yielded (subcommand_step st)]
           /\ first <> subcommand_step st
           /\ counter st = 0).
Proof.
  split; [|split; [|split]].
  - intros w. unfold choose_repository. unfold_monad. cbn -[Z.ltb].
    destruct (is_undefined (repo (state w)) || (counter (state w) <? 2)%Z);
      eexists; repeat split.
  - intros w w2 Hd. unfold bind at 1. rewrite Hd.
    unfold step_back_over_repository. unfold_monad. cbn.
    eexists. repeat split.
  - intros w w1 w2 Hsub Hc Hrepos Hask Hrepo Hd.
    assert (Hlt : (counter (state w) <? 1)%Z = false) by (apply Z.ltb_ge; lia).
    destruct (subcommand (state w)) as [tag|] eqn:Htag; [|discriminate].
    pose proof Hrepo as Hw1. unfold choose_repository in Hw1. unfold_monad.
    cbn -[Z.ltb orb] in Hw1. rewrite Hask in Hw1. cbn in Hw1. injection Hw1 as Hw1.
    unfold steps_try, choose_subcommand, ordered_repositories.
    unfold bind at 1, bind at 1, get_state at 1. rewrite Htag, Hlt. cbn [is_undefined orb when ret].
    unfold bind at 1, get_state at 1. rewrite Htag.
    unfold bind at 1. cbn [set__subcommand]. 
    unfold bind at 1, bind at 1, get_repos at 1. cbn [repos]. rewrite Hrepos. cbn [ret].
    unfold bind at 1. cbn [set__subcommand world_of] in Hrepo.
    rewrite Hrepos in Hrepo. rewrite Hrepo.
    unfold bind at 1. rewrite Hd.
    unfold step_back_over_repository. unfold_monad. cbn.
    eexists. repeat split.
    + rewrite <- Hw1. cbn. reflexivity.
    + rewrite <- Hw1. cbn. lia.
  - intros tag listing Htag Hrs Hl result. unfold result.
    destruct Htag as [<-|[<-|[<-|[<-|[<-|[]]]]]].
    all: unfold run, steps, function_, while_true, history;
      cbn [start inputs length while_fuel Scenario.only constructor args_state];
      unfold try_catch, steps_try, choose_subcommand, ordered_repositories,
        choose_repository, dispatch, step_back_over_repository;
      unfold applyOrPop, drop, StashGitCommand.list, push, function_, while_true;
      cbn [while_fuel];
      unfold applyOrPop_body, drop_body, list_body, push_body;
      unfold_monad;
      cbn -[stash_step list_step push_message_step subcommand_step];
      rewrite Hrs;
      cbn -[stash_step list_step push_message_step subcommand_step];
      rewrite ?Hl;
      cbn -[stash_step list_step push_message_step subcommand_step];
      do 2 eexists; (split; [reflexivity|]); (split; [reflexivity|]);
      split; [discriminate|reflexivity].
Qed.

(** The user chose [drop] in the only repository and answers [Back] at the
    stash step. *)
Lemma single_repository_is_auto_selected_witness :
  let E := Scenario.env [Scenario.work] (Some [Scenario.wip; Scenario.older]) in
  let w :=
    {| state := initial_state (constructor (Scenario.only "drop"));
       _subcommand := None; repos := Some [Scenario.work]; pickedStash := None;
       inputs := [SelDirective Back]; log := [] |} in
  let w1 :=
    world_of (choose_repository E [Scenario.work]
                (world_of (set__subcommand (subcommand (state w)) w))) in
  let w2 := world_of (dispatch E w1) in
  let result := run E (Scenario.only "drop") [SelDirective Back] in
  (exists w3,
      steps_try E w = Jumps JContinue w3
      /\ counter (state w1) = counter (state w) + 1
      /\ counter (state w3) = counter (state w2) - 1
      /\ counter (state w3) - counter (state w) = counter (state w2) - counter (state w1))
  /\ (exists w3,
      (dispatch E ;; step_back_over_repository [Scenario.work]) w1 = Jumps JContinue w3
      /\ state w3 = with_counter (counter (state w2) - 1) (state w2)
      /\ log w3 = log w2)
  /\ (exists first st,
      result = Stop Suspended (world_of result)
      /\ history (world_of result) = [Yielded first; Yielded (subcommand_step st)]
      /\ first <> subcommand_step st
      /\ counter st = 0).
Proof.
  intros E w w1 w2 result.
  destruct (single_repository_is_auto_selected E Scenario.work)
    as (_ & Hback & Hround & Hland).
  split; [|split].
  - apply (Hround w w1 w2); reflexivity.
  - apply (Hback w1 w2). reflexivity.
  - apply (Hland "drop" (Some [Scenario.wip; Scenario.older])); try reflexivity.
    right. right. now left.
Defined.

(** C5 as stated fails when the caller already gave the repository: with
    the subcommand and the only repository known the counter starts at 2;
    nothing is selected and nothing is added to the counter before the
    chain, and after the pass the counter is lowered by one all the same.
    [Back] at the stash step takes the counter to 1 and the end of the pass
    to 0, so the pass changes the counter by one more than the chain did. *)
Lemma seeded_repository_is_not_net_zero :
  let E := Scenario.env [Scenario.work] (Some [Scenario.wip; Scenario.older]) in
  let seed :=
    {| p_subcommand := Some "drop"; p_repo := Some Scenario.work; p_stash := None;
       p_message := None; p_uris := None; p_flags := None |} in
  let args := Some {| args_state := Some seed; args_confirm := None |} in
  let w :=
    {| state := initial_state (constructor args);
       _subcommand := Some "drop"; repos := Some [Scenario.work]; pickedStash := None;
       inputs := [SelDirective Back]; log := [] |} in
  let entered := world_of (choose_repository E [Scenario.work] w) in
  let left := world_of (dispatch E entered) in
  let after := world_of (steps_try E w) in
  steps_try E w = Jumps JContinue after
  /\ counter (state w) = 2
  /\ counter (state entered) = 2
  /\ counter (state entered) <> counter (state w) + 1
  /\ counter (state left) = 1
  /\ counter (state after) = counter (state left) - 1
  /\ counter (state after) - counter (state w)
     <> counter (state left) - counter (state entered).
Proof. vm_compute. repeat split; try reflexivity; discriminate. Qed.

(** * Further properties of the wizard *)

(** ** The key of a remembered confirmation *)

Lemma append_length (a b : string) :
  String.length (a ++ b)%string = (String.length a + String.length b)%nat.
Proof. induction a as [|c a IH]; cbn; auto. Qed.

Lemma append_cancel_r (a b r : string) : (a ++ r)%string = (b ++ r)%string -> a = b.
Proof.
  revert b. induction a as [|c a IH]; intros [|d b] H; cbn in H.
  - reflexivity.
  - apply (f_equal String.length) in H. cbn in H. rewrite append_length in H. lia.
  - apply (f_equal String.length) in H. cbn in H. rewrite append_length in H. lia.
  - injection H as -> H. f_equal. now apply IH.
Qed.

(** X1: [skipConfirmKey] tells the subcommands apart: two different values
    of [this._subcommand], unset included, never give the same key, so a
    confirmation remembered for one subcommand is not taken for another. *)
Theorem skipConfirmKey_separates (E : Env) (a b : option string) :
  a <> b -> skipConfirmKey E a <> skipConfirmKey E b.
Proof.
  intros Hne Heq. apply Hne. unfold skipConfirmKey, key in Heq.
  cbn [append] in Heq. injection Heq as Heq.
  destruct a as [a|], b as [b|]; cbn [append] in Heq.
  - injection Heq as Heq. f_equal. now apply append_cancel_r in Heq.
  - discriminate.
  - discriminate.
  - reflexivity.
Qed.

Lemma skipConfirmKey_separates_witness :
  skipConfirmKey (Scenario.env [Scenario.work] None) (Some "drop")
  <> skipConfirmKey (Scenario.env [Scenario.work] None) (Some "pop")
  /\ skipConfirmKey (Scenario.env [Scenario.work] None) None
     <> skipConfirmKey (Scenario.env [Scenario.work] None) (Some "list").
Proof.
  split.
  - apply skipConfirmKey_separates. discriminate.
  - apply skipConfirmKey_separates. discriminate.
Defined.

(** ** How a run can end *)

(** X2: a run returns, raises an [Error] or stops at a step; the break
    signal never reaches the caller, no [break], [continue] or [return]
    is left over, and the loops do not run out of fuel.  An [Error] that
    reaches the caller was logged by the handler just before. *)
Theorem run_outcome (E : Env) (args : option StashGitCommandArgs)
    (answers : list Selection) :
  match run E args answers with
  | Ok _ _ => True
  | Throw (Error msg) w =>
      exists context rest, log w = LoggerError (Error msg) context :: rest
  | Throw BreakQuickCommand _ => False
  | Jumps _ _ => False
  | Stop h _ => h <> OutOfFuel
  end.
Proof.
  pose proof (run_ended E args answers) as H.
  destruct (run E args answers) as [a w|[|msg] w|j w|h w]; inversion H; subst; eauto.
Qed.

(** ** The text of the generic failure message *)











(** ** The operation a chain issues *)

Lemma grown_trans (K : Event -> bool) (a b c : list Event) :
  grown K a b -> grown K b c -> grown K a c.
Proof.
  intros Hab Hbc. induction Hbc; [assumption| |].
  - now apply grown_yield.
  - now apply grown_call.
Qed.

Lemma grown_in (K : Event -> bool) (base l : list Event) :
  grown K base l ->
  forall e, In e l -> In e base \/ is_yield e = true \/ K e = true.
Proof.
  induction 1 as [|s l Hg IH|c l Hc Hg IH]; intros e Hin; [now left| |].
  - destruct Hin as [<-|Hin]; [right; now left | now apply IH].
  - destruct Hin as [<-|Hin]; [right; now right | now apply IH].
Qed.

Ltac grows :=
  cbn; repeat (first [ apply grown_yield | apply grown_call; [reflexivity|] ]);
  first [apply grown_base | assumption].

Lemma while_fuel_grown (K : Event -> bool) (body : M unit) :
  (forall w, grown K (log w) (log (world_of (body w)))) ->
  forall n w, grown K (log w) (log (world_of (while_fuel n body w))).
Proof.
  intros Hbody n. induction n as [|n IH]; intros w; cbn [while_fuel]; [constructor|].
  pose proof (Hbody w) as H.
  destruct (body w) as [[] w'|ex w'|[] w'|h w']; cbn [world_of] in *; auto;
    eapply grown_trans; eauto.
Qed.

Lemma chain_grown (K : Event -> bool) (body : M unit) (w w0 : World) :
  (forall w, grown K (log w) (log (world_of (body w)))) ->
  log w0 = log w ->
  grown K (log w) (log (world_of (function_ (while_true body ;; return_) w0))).
Proof.
  intros Hbody Hlog. rewrite <- Hlog.
  pose proof (while_fuel_grown K body Hbody (S (length (inputs w0))) w0) as H.
  unfold function_, bind, return_, while_true.
  destruct (while_fuel _ body w0) as [[] w'|ex w'|[] w'|h w']; exact H.
Qed.

Lemma applyOrPop_grown (E : Env) (w : World) :
  grown (operation_of (Some "apply")) (log w) (log (world_of (applyOrPop E w))).
Proof.
  apply chain_grown; [|reflexivity]. clear w. intros w.
  unfold applyOrPop_body. run_code. all: grows.
Qed.

Lemma drop_grown (E : Env) (w : World) :
  grown (operation_of (Some "drop")) (log w) (log (world_of (drop E w))).
Proof.
  apply chain_grown; [|reflexivity]. clear w. intros w.
  unfold drop_body. run_code. all: grows.
Qed.

Lemma list_grown (E : Env) (w : World) :
  grown (operation_of (Some "list")) (log w) (log (world_of (StashGitCommand.list E w))).
Proof.
  unfold StashGitCommand.list, function_ at 1.
  change (grown (operation_of (Some "list")) (log w)
            (log (world_of (function_ (while_true (list_body E) ;; return_)
                              (world_of (set_pickedStash None w)))))).
  apply chain_grown; [|reflexivity]. clear w. intros w.
  unfold list_body. run_code. all: grows.
Qed.

Lemma push_grown (E : Env) (w : World) :
  grown (operation_of (Some "push")) (log w) (log (world_of (push E w))).
Proof.
  unfold push, function_ at 1, bind at 1, get_state, bind at 1, when.
  destruct (is_undefined (flags (state w)));
    [ change (grown (operation_of (Some "push")) (log w)
                (log (world_of (function_ (while_true (push_body E) ;; return_)
                                  (world_of (modify (with_flags (Some [])) w))))))
    | change (grown (operation_of (Some "push")) (log w)
                (log (world_of (function_ (while_true (push_body E) ;; return_) w)))) ];
    (apply chain_grown; [|reflexivity]); clear w; intros w;
    unfold push_body; run_code; grows.
Qed.

(** X4: the dispatch of [steps] issues only the operation of the active
    subcommand.  Whatever the answers, every event that the chain adds to
    the log is a step yielded or the terminal call of the tag that was in
    [state.subcommand] when the chain was entered: [stashApply] for [apply]
    and [pop], [stashDelete] for [drop], a command of the action menu for
    [list], [stashSave] for [push]; with any other tag nothing is added. *)
Theorem dispatch_issues_own_operation (E : Env) (w : World) (e : Event) :
  In e (log (world_of (dispatch E w))) ->
  In e (log w)
  \/ is_yield e = true
  \/ operation_of (subcommand (state w)) e = true.
Proof.
  assert (Hk : forall tag' : string,
             (forall e', operation_of (Some tag') e' = true ->
                         operation_of (subcommand (state w)) e' = true) ->
             forall l, grown (operation_of (Some tag')) (log w) l ->
                       In e l ->
                       In e (log w) \/ is_yield e = true
                       \/ operation_of (subcommand (state w)) e = true).
  { intros tag' Himp l Hg Hin.
    destruct (grown_in _ _ _ Hg e Hin) as [H|[H|H]]; auto. }
  unfold dispatch, bind, get_state.
  destruct (is_tag (subcommand (state w)) "apply" || is_tag (subcommand (state w)) "pop")
    eqn:Happly.
  { apply (Hk "apply"); [|apply applyOrPop_grown].
    intros [] He; cbn in He |- *; try discriminate. exact Happly. }
  destruct (is_tag (subcommand (state w)) "drop") eqn:Hdrop.
  { apply (Hk "drop"); [|apply drop_grown].
    intros [] He; cbn in He |- *; try discriminate. exact Hdrop. }
  destruct (is_tag (subcommand (state w)) "list") eqn:Hlist.
  { apply (Hk "list"); [|apply list_grown].
    intros [] He; cbn in He |- *; try discriminate. exact Hlist. }
  destruct (is_tag (subcommand (state w)) "push") eqn:Hpush.
  { apply (Hk "push"); [|apply push_grown].
    intros [] He; cbn in He |- *; try discriminate. exact Hpush. }
  cbn. now left.
Qed.

(** With [drop] active, the only call in the log is the deletion. *)
Lemma dispatch_issues_own_operation_witness :
  let E := Scenario.env [Scenario.work] (Some [Scenario.wip; Scenario.older]) in
  let st := initial_state (constructor (Scenario.only "drop")) in
  let w :=
    {| state := with_counter 2 (with_repo (Some Scenario.work) st);
       _subcommand := Some "drop"; repos := Some [Scenario.work]; pickedStash := None;
       inputs :=
         [Scenario.picks Scenario.older;
          Scenario.confirms 0 (drop_confirm_step E st Scenario.work Scenario.older)];
       log := [] |} in
  let call := StashDelete "/work/app" "stash@{1}" in
  hd_error (log (world_of (dispatch E w))) = Some call
  /\ (In call (log w) \/ is_yield call = true
      \/ operation_of (subcommand (state w)) call = true).
Proof.
  intros E st w call. split; [reflexivity|].
  apply (dispatch_issues_own_operation E w call). now left.
Defined.

(** ** What the answer to the confirmation of [drop] decides *)

(** X5: with the stash known, [drop] deletes it when the confirmation step
    is answered with a selection, whatever was selected, and only then:
    with no answer yet, with [Back] or with any other answer the log holds
    the confirmation step and no call.  After [Back] the chain returns with
    the stash still in the state and the counter lowered by one. *)
Theorem drop_deletes_only_on_a_choice (E : Env) (w : World) (r : Repository)
    (s : GitStashCommit) :
  repo (state w) = Some r ->
  stash (state w) = Some s ->
  3 <= counter (state w) ->
  let step := drop_confirm_step E (state w) r s in
  let call := StashDelete (repo_path r) (stashName s) in
  (forall items rest,
      inputs w = SelItems items :: rest ->
      log (world_of (drop E w)) = call :: Yielded step :: log w)
  /\ (inputs w = [] ->
      drop E w = Stop Suspended (world_of (drop E w))
      /\ log (world_of (drop E w)) = [Yielded step] ++ log w)
  /\ (forall answer rest,
         inputs w = answer :: rest ->
         (forall items, answer <> SelItems items) ->
         log (world_of (drop E w)) = Yielded step :: log w)
  /\ (forall rest,
         inputs w = SelDirective Back :: rest ->
         exists w',
           drop E w = Ok tt w'
           /\ stash (state w') = Some s
           /\ counter (state w') = counter (state w) - 1
           /\ inputs w' = rest).
Proof.
  intros Hr Hs Hc step call.
  assert (Hlt : (counter (state w) <? 3)%Z = false) by (apply Z.ltb_ge; lia).
  assert (Hmax : Z.max 0 (counter (state w) - 1) = counter (state w) - 1) by lia.
  unfold step, call.
  unfold drop, function_, while_true. cbn [while_fuel]. unfold drop_body.
  unfold_monad. cbn -[Z.ltb Z.max drop_confirm_step].
  repeat (progress (rewrite ?Hs, ?Hlt, ?Hr; cbn -[Z.ltb Z.max drop_confirm_step])).
  split; [|split; [|split]].
  - intros items rest Hin. rewrite Hin. cbn -[drop_confirm_step].
    now destruct (stashDelete E (repo_path r) (stashName s)).
  - intros Hin. rewrite Hin. cbn -[drop_confirm_step]. split; reflexivity.
  - intros answer rest Hin Hno. rewrite Hin. cbn -[Z.max drop_confirm_step].
    destruct answer as [[|]|items|v]; cbn -[Z.max drop_confirm_step]; try reflexivity.
    exfalso. now apply (Hno items).
  - intros rest Hin. rewrite Hin. cbn -[Z.max drop_confirm_step].
    eexists. repeat split; cbn -[Z.max]; auto.
Qed.

(** The user goes back from the confirmation: nothing is deleted. *)
Lemma drop_deletes_only_on_a_choice_witness :
  let E := Scenario.env [Scenario.work] (Some [Scenario.wip; Scenario.older]) in
  let known (answers : list Selection) :=
    {| state :=
         {| counter := 3; confirm_override := None; subcommand := Some "drop";
            repo := Some Scenario.work; stash := Some Scenario.wip; message := None;
            uris := None; flags := None |};
       _subcommand := Some "drop"; repos := Some [Scenario.work]; pickedStash := None;
       inputs := answers; log := [] |} in
  let step := drop_confirm_step E (state (known [])) Scenario.work Scenario.wip in
  log (world_of (drop E (known [SelItems []])))
  = [StashDelete "/work/app" "stash@{0}"; Yielded step]
  /\ log (world_of (drop E (known [SelValue "yes"]))) = [Yielded step]
  /\ exists w',
      drop E (known [SelDirective Back]) = Ok tt w'
      /\ stash (state w') = Some Scenario.wip
      /\ counter (state w') = 3 - 1
      /\ inputs w' = [].
Proof.
  intros E known step.
  assert (Hc : 3 <= 3) by lia.
  split; [|split].
  - exact (proj1 (drop_deletes_only_on_a_choice E (known [SelItems []]) _ _
                    eq_refl eq_refl Hc) [] [] eq_refl).
  - apply (proj1 (proj2 (proj2 (drop_deletes_only_on_a_choice E (known [SelValue "yes"])
                                  _ _ eq_refl eq_refl Hc))) (SelValue "yes") [] eq_refl).
    intros items. discriminate.
  - exact (proj2 (proj2 (proj2 (drop_deletes_only_on_a_choice E (known [SelDirective Back])
                                  _ _ eq_refl eq_refl Hc))) [] eq_refl).
Defined.

(** ** A fully seeded invocation *)

(** X6: started with the subcommand [apply] or [pop], the repository and
    the stash all given, and with the confirmation off, the wizard yields
    no step and reads no answer: whatever repositories exist, it calls
    [stashApply] for the given repository and stash, with [deleteAfter]
    true exactly for [pop], and returns when the call has returned. *)
Theorem seeded_apply_runs_silently (E : Env) (tag : string) (r : Repository)
    (s : GitStashCommit) (override : option bool) (rs : list Repository)
    (answers : list Selection) :
  tag = "apply" \/ tag = "pop" ->
  getOrderedRepositories E = Returns rs ->
  QuickCommandBase.confirm (canConfirm (Some tag)) (canSkipConfirm E (Some tag))
    (skipConfirmKey E (Some tag)) (skipConfirmations E) override = false ->
  (forall msg, stashApply E (repo_path r) (stashName s) (String.eqb tag "pop") <> Throws msg) ->
  let seed :=
    {| p_subcommand := Some tag; p_repo := Some r; p_stash := Some s;
       p_message := None; p_uris := None; p_flags := None |} in
  let args := Some {| args_state := Some seed; args_confirm := override |} in
  let result := run E args answers in
  result = Ok tt (world_of result)
  /\ log (world_of result) = [StashApply (repo_path r) (stashName s) (String.eqb tag "pop")]
  /\ inputs (world_of result) = answers.
Proof.
  intros Htag Hrs Hask Hret seed args result. unfold result, args, seed.
  destruct Htag as [-> | ->].
  all: unfold run, steps, function_, while_true;
    cbn [start inputs while_fuel];
    unfold try_catch, steps_try, choose_subcommand, ordered_repositories,
      choose_repository, dispatch, step_back_over_repository;
    unfold_monad;
    cbn -[QuickCommandBase.confirm canConfirm canSkipConfirm skipConfirmKey applyOrPop];
    rewrite Hrs;
    cbn -[QuickCommandBase.confirm canConfirm canSkipConfirm skipConfirmKey applyOrPop];
    unfold applyOrPop, function_, while_true; cbn [while_fuel]; unfold applyOrPop_body;
    unfold_monad;
    cbn -[QuickCommandBase.confirm canConfirm canSkipConfirm skipConfirmKey];
    rewrite Hask; cbn;
    cbn in Hret;
    match goal with
    | |- context [stashApply ?env ?p ?n ?b] =>
        destruct (stashApply env p n b) eqn:Hout; cbn;
        [ repeat split | repeat split | exfalso; eapply Hret; reflexivity ]
    end.
Qed.

(** Called with [confirm: false] from another command, [pop] runs without
    a step, in a workspace of two repositories too. *)
Lemma seeded_apply_runs_silently_witness :
  let E := Scenario.env [Scenario.docs; Scenario.work] (Some [Scenario.wip]) in
  let seed :=
    {| p_subcommand := Some "pop"; p_repo := Some Scenario.work;
       p_stash := Some Scenario.wip; p_message := None; p_uris := None;
       p_flags := None |} in
  let args := Some {| args_state := Some seed; args_confirm := Some false |} in
  let result := run E args [SelDirective Back] in
  result = Ok tt (world_of result)
  /\ log (world_of result) = [StashApply "/work/app" "stash@{0}" true]
  /\ inputs (world_of result) = [SelDirective Back].
Proof.
  intros E seed args result.
  apply (seeded_apply_runs_silently E "pop" Scenario.work Scenario.wip (Some false)
           [Scenario.docs; Scenario.work] [SelDirective Back]).
  - now right.
  - reflexivity.
  - reflexivity.
  - intros msg. discriminate.
Defined.

(** ** When the repositories cannot be listed *)

(** X7: the repositories are fetched after the subcommand is known and
    before any other step.  When [getOrderedRepositories] fails, a wizard
    started with a subcommand yields no step and issues no operation; the
    error is logged under the tag and handled by the case of that tag,
    though nothing was applied, deleted or saved: [drop] shows "Unable to
    delete stash", [push] "Unable to stash changes" (or the message of git
    when it asks for a newer version), [apply] and [pop] one message of
    their table, and with [list] the error is raised to the caller. *)
Theorem unlisted_repositories_fail_by_tag (E : Env) (msg : string)
    (answers : list Selection) :
  getOrderedRepositories E = Raises msg ->
  let outcome (tag : string) := run E (Scenario.only tag) answers in
  let logged (tag : string) := LoggerError (Error msg) ("Stash." ++ tag)%string in
  (outcome "drop" = Ok tt (world_of (outcome "drop"))
   /\ history (world_of (outcome "drop"))
      = [logged "drop"; ShowGenericErrorMessage "Unable to delete stash"])
  /\ (outcome "push" = Ok tt (world_of (outcome "push"))
      /\ history (world_of (outcome "push"))
         = [logged "push";
            if Js.includes msg "newer version of Git"
            then ShowErrorMessage ("Unable to stash changes. " ++ msg)%string
            else ShowGenericErrorMessage "Unable to stash changes"])
  /\ (outcome "list" = Throw (Error msg) (world_of (outcome "list"))
      /\ history (world_of (outcome "list")) = [logged "list"])
  /\ (forall tag, tag = "apply" \/ tag = "pop" ->
      outcome tag = Ok tt (world_of (outcome tag))
      /\ exists report,
          history (world_of (outcome tag)) = [logged tag; report]
          /\ is_report report = true).
Proof.
  intros Hrs outcome logged. unfold outcome, logged.
  assert (Hrun : forall tag,
             In tag ["apply"; "pop"; "drop"; "list"; "push"] ->
             run E (Scenario.only tag) answers
             = finish (steps_catch E (Error msg)
                         {| state := initial_state (constructor (Scenario.only tag));
                            _subcommand := Some tag; repos := None; pickedStash := None;
                            inputs := answers; log := [] |})).
  { intros tag Htag.
    destruct Htag as [<-|[<-|[<-|[<-|[<-|[]]]]]].
    all: unfold run, steps, function_, while_true;
      cbn [start inputs while_fuel];
      unfold try_catch, steps_try, choose_subcommand, ordered_repositories;
      unfold_monad; cbn -[steps_catch]; rewrite Hrs; cbn -[steps_catch];
      match goal with
      | |- context [steps_catch ?env (Error ?m) ?w] =>
          destruct (steps_catch_post env m w) as [(rep & w' & Hr & _)|(w' & Hr & _)];
          rewrite Hr; reflexivity
      end. }
  split; [|split; [|split]].
  - rewrite Hrun by (cbn; tauto). unfold steps_catch, classify. unfold_monad.
    cbn. split; reflexivity.
  - rewrite Hrun by (cbn; tauto). unfold steps_catch, classify. unfold_monad.
    cbn -[Js.includes]. destruct (Js.includes msg "newer version of Git"); split; reflexivity.
  - rewrite Hrun by (cbn; tauto). unfold steps_catch, classify. unfold_monad.
    cbn. split; reflexivity.
  - intros tag [-> | ->]; (rewrite Hrun by (cbn; tauto));
      unfold steps_catch, classify; unfold_monad; cbn -[Js.includes Js.trim Js.replace_newlines];
      destruct (Js.includes msg
                  "Your local changes to the following files would be overwritten by merge");
      try destruct (Js.includes msg "Auto-merging" && Js.includes msg "CONFLICT");
      (split; [reflexivity|]); eexists; split; reflexivity.
Qed.

(** The workspace cannot be read while the user wants to drop a stash. *)
Lemma unlisted_repositories_fail_by_tag_witness :
  let E := Scenario.env [Scenario.work] None in
  let broken :=
    {| getOrderedRepositories := Raises "EACCES: permission denied";
       getActiveRepository := getActiveRepository E;
       getStashList := getStashList E;
       stashApply := stashApply E;
       stashDelete := stashDelete E;
       stashSave := stashSave E;
       getItems := getItems E;
       execute := execute E;
       skipConfirmations := skipConfirmations E;
       pickedVia := pickedVia E;
       super_canSkipConfirm := super_canSkipConfirm E;
       getFormattedPath := getFormattedPath E;
       pad := pad E;
       Dot := Dot E;
       Dash := Dash E;
       Ellipsis := Ellipsis E;
       Emdash := Emdash E |} in
  let result := run broken (Scenario.only "drop") [] in
  result = Ok tt (world_of result)
  /\ history (world_of result)
     = [LoggerError (Error "EACCES: permission denied") "Stash.drop";
        ShowGenericErrorMessage "Unable to delete stash"].
Proof.
  intros E broken result.
  exact (proj1 (unlisted_repositories_fail_by_tag broken "EACCES: permission denied" []
                  eq_refl)).
Defined.

(** ** The repository step *)

(** X8: with no repository at all the repository step is still yielded,
    with an empty list of items: unlike the stash steps it gets no [Back]
    and [Cancel] items.  This holds for any subcommand tag the wizard is
    started with. *)
Theorem no_repository_gives_an_empty_step (E : Env) (tag : string)
    (active : option Repository) :
  getOrderedRepositories E = Returns [] ->
  getActiveRepository E = Returns active ->
  let result := run E (Scenario.only tag) [] in
  exists step,
    result = Stop Suspended (world_of result)
    /\ history (world_of result) = [Yielded step]
    /\ step = repository_step (initial_state (constructor (Scenario.only tag))) [] active
    /\ menu step = [].
Proof.
  intros Hrs Hactive result. unfold result.
  assert (Hst : initial_state (constructor (Scenario.only tag))
                = {| counter := 1; confirm_override := None; subcommand := Some tag;
                     repo := None; stash := None; message := None; uris := None;
                     flags := None |}).
  { cbn -[is_tag].
    destruct (is_tag (Some tag) "apply" || is_tag (Some tag) "drop" || is_tag (Some tag) "pop");
      [reflexivity|].
    now destruct (is_tag (Some tag) "push"). }
  unfold run, steps, function_, while_true, history, start. rewrite Hst.
  cbn [inputs length while_fuel].
  unfold try_catch, steps_try, choose_subcommand, ordered_repositories, choose_repository.
  unfold_monad. cbn -[repository_step is_tag]. rewrite Hrs. cbn -[repository_step is_tag].
  rewrite Hactive. cbn -[repository_step is_tag].
  eexists. repeat split.
Qed.

Lemma no_repository_gives_an_empty_step_witness :
  let E := Scenario.env [] None in
  let result := run E (Scenario.only "push") [] in
  exists step,
    result = Stop Suspended (world_of result)
    /\ history (world_of result) = [Yielded step]
    /\ step = repository_step (initial_state (constructor (Scenario.only "push"))) [] None
    /\ menu step = [].
Proof.
  intros E result.
  exact (no_repository_gives_an_empty_step E "push" None eq_refl eq_refl).
Defined.

(** X9: the repository step marks the repository of the state when there
    is one, and asks for the active repository only when there is none.
    With [state.repo] set, the step is yielded with that repository as the
    marked one even if [getActiveRepository] would fail; with [state.repo]
    unset a failure of [getActiveRepository] is raised before any step. *)
Theorem repository_step_prefers_the_state (E : Env) (w : World)
    (rs : list Repository) :
  (length rs =? 1)%nat = false ->
  (forall r0,
      repo (state w) = Some r0 ->
      (counter (state w) <? 2)%Z = true ->
      log (world_of (choose_repository E rs w))
      = Yielded (repository_step (state w) rs (Some r0)) :: log w)
  /\ (forall msg,
         repo (state w) = None ->
         getActiveRepository E = Raises msg ->
         choose_repository E rs w = Throw (Error msg) w)
  /\ (forall active,
         repo (state w) = None ->
         getActiveRepository E = Returns active ->
         log (world_of (choose_repository E rs w))
         = Yielded (repository_step (state w) rs active) :: log w).
Proof.
  intros Hlen. unfold choose_repository. unfold_monad.
  split; [|split].
  - intros r0 Hr Hc. cbn -[Z.ltb repository_step Nat.eqb orb].
    rewrite Hr, Hc, Hlen. cbn -[repository_step].
    repeat (split_match; cbn -[repository_step]); reflexivity.
  - intros msg Hr Ha. cbn -[Z.ltb repository_step Nat.eqb orb].
    rewrite Hr, Hlen, Ha. reflexivity.
  - intros active Hr Ha. cbn -[Z.ltb repository_step Nat.eqb orb].
    rewrite Hr, Hlen, Ha. cbn -[repository_step].
    repeat (split_match; cbn -[repository_step]); reflexivity.
Qed.

(** The user went back to the repository step of a workspace with two
    repositories: the one chosen before is marked. *)
Lemma repository_step_prefers_the_state_witness :
  let E := Scenario.env [Scenario.work; Scenario.docs] None in
  let w :=
    {| state :=
         {| counter := 1; confirm_override := None; subcommand := Some "list";
            repo := Some Scenario.docs; stash := None; message := None;
            uris := None; flags := None |};
       _subcommand := Some "list"; repos := Some [Scenario.work; Scenario.docs];
       pickedStash := None; inputs := []; log := [] |} in
  log (world_of (choose_repository E [Scenario.work; Scenario.docs] w))
  = [Yielded (repository_step (state w) [Scenario.work; Scenario.docs] (Some Scenario.docs))]
  /\ menu (repository_step (state w) [Scenario.work; Scenario.docs] (Some Scenario.docs))
     = [RepositoryQuickPickItem Scenario.work false;
        RepositoryQuickPickItem Scenario.docs true].
Proof.
  intros E w. split; [|reflexivity].
  exact (proj1 (repository_step_prefers_the_state E w [Scenario.work; Scenario.docs] eq_refl)
           Scenario.docs eq_refl eq_refl).
Defined.

(** ** The first step *)

(** X10: when the subcommand is not known the first thing the wizard does
    is yield the subcommand step, before the repositories are fetched; if
    it is answered [Back] the wizard returns with that one step in its
    log, no repository fetched and no subcommand set, in any workspace. *)
Theorem back_at_the_first_step_ends (E : Env) (override : option bool)
    (rest : list Selection) :
  let args := Some {| args_state := Some Scenario.nothing; args_confirm := override |} in
  forall a,
    a = args \/ a = None ->
    let result := run E a (SelDirective Back :: rest) in
    result = Ok tt (world_of result)
    /\ history (world_of result) = [Yielded (subcommand_step (initial_state (constructor a)))]
    /\ repos (world_of result) = None
    /\ subcommand (state (world_of result)) = None
    /\ inputs (world_of result) = rest.
Proof.
  intros args a [-> | ->]; intros result; unfold result;
    unfold run, steps, function_, while_true, history;
    cbn [start inputs while_fuel];
    unfold try_catch, steps_try, choose_subcommand;
    unfold_monad; cbn; repeat split.
Qed.

Lemma back_at_the_first_step_ends_witness :
  let E := Scenario.env_unlisted in
  let result := run E None [SelDirective Back; SelDirective Back] in
  result = Ok tt (world_of result)
  /\ history (world_of result) = [Yielded (subcommand_step (initial_state (constructor None)))]
  /\ repos (world_of result) = None
  /\ subcommand (state (world_of result)) = None
  /\ inputs (world_of result) = [SelDirective Back].
Proof.
  intros E result.
  exact (back_at_the_first_step_ends E None [SelDirective Back] None (or_intror eq_refl)).
Defined.

(** ** Inspecting stashes with [list] *)

(** X11: in [list], choosing a command of the action menu executes that
    command and raises the break signal; choosing an item that is not a
    command, or going back, executes nothing and shows the stash step
    again, this time with the inspected stash marked.  Going back leaves
    the counter where it was before the stash was picked; an item that is
    not a command leaves it two higher. *)
Theorem list_inspects_and_returns (E : Env) (w : World) (r : Repository)
    (c : GitStashCommit) (picked : bool) (more : list Item)
    (listing : option (list GitStashCommit)) (actions : list Item) :
  repo (state w) = Some r ->
  getStashList E (repo_path r) = Returns listing ->
  getItems E c = Returns actions ->
  let first := list_step E (state w) r listing None in
  let second := list_actions_step E (state w) r c actions in
  let again := list_step E (state w) r listing (Some c) in
  let pick := SelItems (CommitQuickPickItem c picked :: more) in
  (forall command others rest,
      inputs w = pick :: SelItems (CommandQuickPickItem command :: others) :: rest ->
      StashGitCommand.list E w
      = Throw (raised_by (execute E command)) (world_of (StashGitCommand.list E w))
      /\ log (world_of (StashGitCommand.list E w))
         = Execute command :: Yielded second :: Yielded first :: log w)
  /\ (forall label others,
         inputs w = [pick; SelItems (OtherQuickPickItem label :: others)] ->
         StashGitCommand.list E w = Stop Suspended (world_of (StashGitCommand.list E w))
         /\ log (world_of (StashGitCommand.list E w))
            = Yielded again :: Yielded second :: Yielded first :: log w
         /\ counter (state (world_of (StashGitCommand.list E w))) = counter (state w) + 2)
  /\ (inputs w = [pick; SelDirective Back] ->
      0 <= counter (state w) ->
      StashGitCommand.list E w = Stop Suspended (world_of (StashGitCommand.list E w))
      /\ log (world_of (StashGitCommand.list E w))
         = Yielded again :: Yielded second :: Yielded first :: log w
      /\ counter (state (world_of (StashGitCommand.list E w))) = counter (state w)).
Proof.
  intros Hr Hl Hitems first second again pick.
  unfold first, second, again, pick.
  split; [|split].
  - intros command others rest Hin.
    unfold StashGitCommand.list, function_, while_true. unfold_monad.
    cbn -[list_step list_actions_step while_fuel]. rewrite Hin.
    cbn [length while_fuel]. unfold list_body. unfold_monad.
    cbn -[list_step list_actions_step while_fuel].
    rewrite Hr. cbn -[list_step list_actions_step while_fuel].
    rewrite Hl, ?Hin. cbn -[list_step list_actions_step while_fuel].
    rewrite Hitems. cbn -[list_step list_actions_step while_fuel].
    destruct (execute E command); cbn; split; reflexivity.
  - intros label others Hin.
    unfold StashGitCommand.list, function_, while_true. unfold_monad.
    cbn -[list_step list_actions_step while_fuel]. rewrite Hin.
    cbn [length while_fuel]. unfold list_body. unfold_monad.
    cbn -[list_step list_actions_step while_fuel Z.add].
    rewrite Hr. cbn -[list_step list_actions_step while_fuel Z.add].
    rewrite Hl, ?Hin. cbn -[list_step list_actions_step while_fuel Z.add].
    rewrite Hitems. cbn -[list_step list_actions_step Z.add].
    rewrite Hr. cbn -[list_step list_actions_step Z.add].
    rewrite Hl. cbn -[list_step list_actions_step Z.add].
    repeat split. lia.
  - intros Hin Hc.
    unfold StashGitCommand.list, function_, while_true. unfold_monad.
    cbn -[list_step list_actions_step while_fuel]. rewrite Hin.
    cbn [length while_fuel]. unfold list_body. unfold_monad.
    cbn -[list_step list_actions_step while_fuel Z.add Z.max Z.sub].
    rewrite Hr. cbn -[list_step list_actions_step while_fuel Z.add Z.max Z.sub].
    rewrite Hl, ?Hin. cbn -[list_step list_actions_step while_fuel Z.add Z.max Z.sub].
    rewrite Hitems. cbn -[list_step list_actions_step Z.add Z.max Z.sub].
    rewrite Hr. cbn -[list_step list_actions_step Z.add Z.max Z.sub].
    rewrite Hl. cbn -[list_step list_actions_step Z.add Z.max Z.sub].
    repeat split. lia.
Qed.

(** The user inspects a stash, goes back and sees the list again. *)
Lemma list_inspects_and_returns_witness :
  let E := Scenario.env [Scenario.work] (Some [Scenario.wip; Scenario.older]) in
  let w (answers : list Selection) :=
    {| state :=
         {| counter := 2; confirm_override := None; subcommand := Some "list";
            repo := Some Scenario.work; stash := None; message := None;
            uris := None; flags := None |};
       _subcommand := Some "list"; repos := Some [Scenario.work]; pickedStash := None;
       inputs := answers; log := [] |} in
  let pick := SelItems [CommitQuickPickItem Scenario.older false] in
  let opened := [pick; SelItems [CommandQuickPickItem "Open Changes"]] in
  let back := [pick; SelDirective Back] in
  (StashGitCommand.list E (w opened)
   = Throw BreakQuickCommand (world_of (StashGitCommand.list E (w opened)))
   /\ hd_error (log (world_of (StashGitCommand.list E (w opened))))
      = Some (Execute "Open Changes"))
  /\ (hd_error (log (world_of (StashGitCommand.list E (w back))))
      = Some (Yielded (list_step E (state (w back)) Scenario.work
                         (Some [Scenario.wip; Scenario.older]) (Some Scenario.older)))
      /\ menu (list_step E (state (w back)) Scenario.work
                 (Some [Scenario.wip; Scenario.older]) (Some Scenario.older))
         = [CommitQuickPickItem Scenario.wip false; CommitQuickPickItem Scenario.older true]
      /\ counter (state (world_of (StashGitCommand.list E (w back)))) = 2).
Proof.
  intros E w pick opened back.
  destruct (list_inspects_and_returns E (w opened) Scenario.work Scenario.older false []
              (Some [Scenario.wip; Scenario.older]) [CommandQuickPickItem "Open Changes"]
              eq_refl eq_refl eq_refl) as (Hopen & _ & _).
  destruct (list_inspects_and_returns E (w back) Scenario.work Scenario.older false []
              (Some [Scenario.wip; Scenario.older]) [CommandQuickPickItem "Open Changes"]
              eq_refl eq_refl eq_refl) as (_ & _ & Hback).
  split.
  - destruct (Hopen "Open Changes" [] [] eq_refl) as (Hres & Hlog).
    split; [exact Hres|]. rewrite Hlog. reflexivity.
  - destruct (Hback eq_refl ltac:(cbn; lia)) as (_ & Hlog & Hcount).
    split; [rewrite Hlog; reflexivity|]. split; [reflexivity|exact Hcount].
Defined.

(** ** The flags of [push] *)

(** X12: the flags that reach [stashSave] are those of the chosen item of
    the confirmation, and the flags the wizard was started with are then
    dropped; when the confirmation is off they are the flags the wizard
    was started with, and none if it was started without.  In both cases
    the message and the files of the state are passed on as they are. *)
Theorem push_flags_reach_stashSave (E : Env) (w : World) (r : Repository)
    (m : string) :
  repo (state w) = Some r ->
  message (state w) = Some m ->
  3 <= counter (state w) ->
  let seeded := match flags (state w) with Some f => f | None => [] end in
  let save (fl : list PushFlags) :=
    StashSave (repo_path r) (Some m) (uris (state w))
      (flags_include fl IncludeUntracked) (flags_include fl KeepIndex) in
  (asks_to_confirm E w = false ->
   log (world_of (push E w)) = save seeded :: log w)
  /\ (forall base item l d dt more rest,
         asks_to_confirm E w = true ->
         inputs w = SelItems (FlagsQuickPickItem base item l d dt :: more) :: rest ->
         log (world_of (push E w))
         = save item
           :: Yielded (push_confirm_step E (with_flags (Some seeded) (state w)) r seeded)
           :: log w
         /\ flags (state (world_of (push E w))) = Some item).
Proof.
  intros Hr Hm Hc seeded save. unfold seeded, save, asks_to_confirm.
  assert (Hlt : (counter (state w) <? 3)%Z = false) by (apply Z.ltb_ge; lia).
  split.
  - intros Hask. unfold push, function_, while_true. unfold_monad.
    destruct (flags (state w)) as [fl|] eqn:Hfl.
    all: cbn -[Z.ltb QuickCommandBase.confirm canConfirm canSkipConfirm skipConfirmKey
               while_fuel];
      cbn [while_fuel]; unfold push_body; unfold_monad;
      cbn -[Z.ltb QuickCommandBase.confirm canConfirm canSkipConfirm skipConfirmKey];
      rewrite Hm, Hlt;
      cbn -[Z.ltb QuickCommandBase.confirm canConfirm canSkipConfirm skipConfirmKey];
      rewrite Hask;
      cbn -[Z.ltb QuickCommandBase.confirm canConfirm canSkipConfirm skipConfirmKey];
      rewrite ?Hm, ?Hr, ?Hfl; cbn; rewrite ?Hr, ?Hfl, ?Hm; cbn;
      match goal with
      | |- context [stashSave ?env ?p ?t ?u ?i ?k] => destruct (stashSave env p t u i k)
      end; reflexivity.
  - intros base item l d dt more rest Hask Hin.
    unfold push, function_, while_true. unfold_monad.
    destruct (flags (state w)) as [fl|] eqn:Hfl.
    all: cbn -[Z.ltb QuickCommandBase.confirm canConfirm canSkipConfirm skipConfirmKey
               while_fuel push_confirm_step];
      rewrite ?Hin; cbn [length while_fuel]; unfold push_body; unfold_monad;
      cbn -[Z.ltb QuickCommandBase.confirm canConfirm canSkipConfirm skipConfirmKey
            push_confirm_step];
      rewrite Hm, Hlt;
      cbn -[Z.ltb QuickCommandBase.confirm canConfirm canSkipConfirm skipConfirmKey
            push_confirm_step];
      rewrite Hask;
      cbn -[Z.ltb QuickCommandBase.confirm canConfirm canSkipConfirm skipConfirmKey
            push_confirm_step];
      rewrite ?Hr, ?Hfl, ?Hin; cbn -[push_confirm_step];
      rewrite ?Hr, ?Hfl, ?Hm, ?Hin; cbn -[push_confirm_step];
      match goal with
      | |- context [stashSave ?env ?p ?t ?u ?i ?k] => destruct (stashSave env p t u i k)
      end; cbn -[push_confirm_step]; split; try reflexivity.
Qed.

(** Started with [--include-untracked], the user chooses the plain push:
    nothing but the plain push is asked of git. *)
Lemma push_flags_reach_stashSave_witness :
  let E := Scenario.env [Scenario.work] None in
  let st :=
    {| counter := 3; confirm_override := None; subcommand := Some "push";
       repo := Some Scenario.work; stash := None; message := Some "before lunch";
       uris := None; flags := Some [IncludeUntracked] |} in
  let w (override : option bool) (answers : list Selection) :=
    {| state := with_flags (flags st)
                  {| counter := 3; confirm_override := override; subcommand := Some "push";
                     repo := Some Scenario.work; stash := None;
                     message := Some "before lunch"; uris := None; flags := None |};
       _subcommand := Some "push"; repos := Some [Scenario.work]; pickedStash := None;
       inputs := answers; log := [] |} in
  let plain := Scenario.confirms 0 (push_confirm_step E st Scenario.work [IncludeUntracked]) in
  hd_error (log (world_of (push E (w None [plain]))))
  = Some (StashSave "/work/app" (Some "before lunch") None false false)
  /\ log (world_of (push E (w (Some false) [plain])))
     = [StashSave "/work/app" (Some "before lunch") None true false].
Proof.
  intros E st w plain.
  assert (Hc : 3 <= 3) by lia.
  split.
  - destruct (proj2 (push_flags_reach_stashSave E (w None [plain]) Scenario.work
                       "before lunch" eq_refl eq_refl Hc)
                [IncludeUntracked] [] "Stash Push" (Some "before lunch")
                "Will stash uncommitted changes" [] [] eq_refl eq_refl) as (Hlog & _).
    rewrite Hlog. reflexivity.
  - exact (proj1 (push_flags_reach_stashSave E (w (Some false) [plain]) Scenario.work
                    "before lunch" eq_refl eq_refl Hc) eq_refl).
Defined.

(** ** Going back from the confirmation of [push] *)

(** X13: in a workspace with one repository, when the user types a
    message, is shown the confirmation and goes back, the message step is
    yielded again and its value is the message that was typed; no save is
    issued. *)
Theorem push_message_is_offered_again (E : Env) (r : Repository) (typed : string)
    (override : option bool) :
  getOrderedRepositories E = Returns [r] ->
  QuickCommandBase.confirm (canConfirm (Some "push")) (canSkipConfirm E (Some "push"))
    (skipConfirmKey E (Some "push")) (skipConfirmations E) override = true ->
  let args :=
    Some {| args_state :=
              Some {| p_subcommand := Some "push"; p_repo := None; p_stash := None;
                      p_message := None; p_uris := None; p_flags := None |};
            args_confirm := override |} in
  let result := run E args [SelValue typed; SelDirective Back] in
  exists first confirmation again,
    result = Stop Suspended (world_of result)
    /\ history (world_of result)
       = [Yielded (Input first); Yielded (Confirm confirmation); Yielded (Input again)]
    /\ input_value first = None
    /\ input_value again = Some typed
    /\ message (state (world_of result)) = Some typed.
Proof.
  intros Hrs Hask args result. unfold result, args.
  unfold run, steps, function_, while_true, history.
  cbn [start inputs length while_fuel].
  unfold try_catch, steps_try, choose_subcommand, ordered_repositories,
    choose_repository, dispatch, step_back_over_repository.
  unfold push, function_, while_true. cbn [while_fuel]. unfold push_body.
  unfold_monad.
  cbn -[QuickCommandBase.confirm canConfirm canSkipConfirm skipConfirmKey].
  rewrite Hrs.
  cbn -[QuickCommandBase.confirm canConfirm canSkipConfirm skipConfirmKey].
  rewrite Hask.
  cbn -[QuickCommandBase.confirm canConfirm canSkipConfirm skipConfirmKey].
  do 3 eexists. repeat split.
Qed.

Lemma push_message_is_offered_again_witness :
  let E := Scenario.env [Scenario.work] None in
  let result := run E (Scenario.only "push") [SelValue "before lunch"; SelDirective Back] in
  exists first confirmation again,
    result = Stop Suspended (world_of result)
    /\ history (world_of result)
       = [Yielded (Input first); Yielded (Confirm confirmation); Yielded (Input again)]
    /\ input_value first = None
    /\ input_value again = Some "before lunch"
    /\ message (state (world_of result)) = Some "before lunch".
Proof.
  intros E result.
  exact (push_message_is_offered_again E Scenario.work "before lunch" None eq_refl eq_refl).
Defined.

(** ** The subcommands the wizard offers *)

(** X14: the subcommand step offers the five tags of the subtitle map, in
    its order.  A tag has a subtitle exactly when it is one of them, and
    with any other tag, or none, the dispatch returns at once and adds
    nothing to the log.  The step marks the item of [state.subcommand]:
    one item when the state holds one of the five tags, none otherwise. *)
Theorem offered_subcommands_are_handled (E : Env) (st : State) :
  map tag_of (menu (subcommand_step st))
  = map (fun kv => Some (fst kv)) subcommandToSubtitleMap
  /\ (forall tag,
         getSubtitle (Some tag) <> None <-> In tag (map fst subcommandToSubtitleMap))
  /\ (forall w,
         (forall tag, subcommand (state w) = Some tag ->
                      ~ In tag (map fst subcommandToSubtitleMap)) ->
         dispatch E w = Jumps JReturn w)
  /\ length (filter picked_of (menu (subcommand_step st)))
     = match subcommand st with
       | Some tag =>
           match getSubtitle (Some tag) with
           | Some _ => 1%nat
           | None => 0%nat
           end
       | None => 0%nat
       end.
Proof.
  assert (Hcases : forall tag : string,
             (tag = "apply" \/ tag = "drop" \/ tag = "list" \/ tag = "pop" \/ tag = "push")
             \/ (String.eqb tag "apply" = false /\ String.eqb tag "drop" = false
                 /\ String.eqb tag "list" = false /\ String.eqb tag "pop" = false
                 /\ String.eqb tag "push" = false)).
  { intros tag.
    destruct (String.eqb_spec tag "apply"); [tauto|].
    destruct (String.eqb_spec tag "drop"); [tauto|].
    destruct (String.eqb_spec tag "list"); [tauto|].
    destruct (String.eqb_spec tag "pop"); [tauto|].
    destruct (String.eqb_spec tag "push"); [tauto|].
    right. repeat split; reflexivity. }
  split; [reflexivity|]. split; [|split].
  - intros tag. cbn [getSubtitle subcommandToSubtitleMap Map_get map fst In].
    destruct (Hcases tag) as [[->|[->|[->|[->| ->]]]]|(H1 & H2 & H3 & H4 & H5)].
    1-5: cbn; split; [tauto | discriminate].
    rewrite H1, H2, H3, H4, H5. split; [congruence|].
    intros [<-|[<-|[<-|[<-|[<-|[]]]]]]; discriminate.
  - intros w Hno. unfold dispatch, bind, get_state.
    destruct (subcommand (state w)) as [tag|] eqn:Htag; [|reflexivity].
    specialize (Hno tag eq_refl). cbn [map fst subcommandToSubtitleMap In] in Hno.
    destruct (Hcases tag) as [[->|[->|[->|[->| ->]]]]|(H1 & H2 & H3 & H4 & H5)];
      try (exfalso; apply Hno; tauto).
    cbn [is_tag]. rewrite H1, H2, H3, H4, H5. reflexivity.
  - cbn [subcommand_step createPickStep menu pick_items].
    destruct (subcommand st) as [tag|]; [|reflexivity].
    cbn [getSubtitle subcommandToSubtitleMap Map_get].
    destruct (Hcases tag) as [[->|[->|[->|[->| ->]]]]|(H1 & H2 & H3 & H4 & H5)];
      try reflexivity.
    cbn [filter picked_of is_tag].
    rewrite H1, H2, H3, H4, H5. reflexivity.
Qed.

(** A tag the wizard does not know: nothing happens. *)
Lemma offered_subcommands_are_handled_witness :
  let E := Scenario.env [Scenario.work] (Some [Scenario.wip]) in
  let w :=
    {| state :=
         {| counter := 2; confirm_override := None; subcommand := Some "clear";
            repo := Some Scenario.work; stash := None; message := None;
            uris := None; flags := None |};
       _subcommand := Some "clear"; repos := Some [Scenario.work]; pickedStash := None;
       inputs := []; log := [] |} in
  dispatch E w = Jumps JReturn w
  /\ In "pop" (map fst subcommandToSubtitleMap).
Proof.
  intros E w.
  destruct (offered_subcommands_are_handled E (state w)) as (_ & Hsub & Hret & _).
  split.
  - apply Hret. intros tag [= <-] Hin. cbn in Hin.
    destruct Hin as [H|[H|[H|[H|[H|[]]]]]]; discriminate.
  - apply Hsub. discriminate.
Defined.

(** ** Back and forth at the confirmation *)

(** X15: in a workspace with one repository, when the user picks a stash,
    goes back from the confirmation of [drop] and picks the same stash
    again, the confirmation step yielded the second time is the one
    yielded the first time, and nothing was deleted; the stash step shown
    in between marks the stash that was picked. *)
Theorem drop_confirmation_is_reproduced (E : Env) (r : Repository)
    (c : GitStashCommit) (picked picked' : bool)
    (listing : option (list GitStashCommit)) :
  getOrderedRepositories E = Returns [r] ->
  getStashList E (repo_path r) = Returns listing ->
  let pick p := SelItems [CommitQuickPickItem c p] in
  let result := run E (Scenario.only "drop") [pick picked; SelDirective Back; pick picked'] in
  exists first confirmation again,
    result = Stop Suspended (world_of result)
    /\ history (world_of result)
       = [Yielded first; Yielded confirmation; Yielded again; Yielded confirmation]
    /\ confirmation = drop_confirm_step E (state (world_of result)) r c
    /\ menu again
       = match listing with
         | None => [DirectiveQuickPickItem Back true; DirectiveQuickPickItem Cancel false]
         | Some commits =>
             map (fun k => CommitQuickPickItem k (String.eqb (stashName k) (stashName c)))
               commits
         end.
Proof.
  intros Hrs Hl pick result.
  eassert (Hrun : result = Stop Suspended _).
  { unfold result, pick, run, steps, function_, bind, return_, while_true.
    cbn [start inputs length].
    set (body := try_catch (steps_try E) (steps_catch E)).
    rewrite (while_fuel_unfold 3 body).
    match goal with
    | |- context [body ?w] => eassert (H1 : body w = Jumps JContinue _)
    end.
    { unfold body, try_catch, steps_try, choose_subcommand, ordered_repositories,
        choose_repository, dispatch, step_back_over_repository.
      unfold drop, function_, while_true. unfold drop_body. unfold_monad.
      cbn -[stash_step drop_confirm_step]. rewrite Hrs.
      cbn -[stash_step drop_confirm_step]. rewrite Hl.
      cbn -[stash_step drop_confirm_step]. reflexivity. }
    rewrite H1. clear H1.
    rewrite (while_fuel_unfold 2 body).
    match goal with
    | |- context [body ?w] => eassert (H2 : body w = Stop Suspended _)
    end.
    { unfold body, try_catch, steps_try, choose_subcommand, ordered_repositories,
        choose_repository, dispatch, step_back_over_repository.
      unfold drop, function_, while_true. unfold drop_body. unfold_monad.
      cbn -[stash_step drop_confirm_step]. rewrite Hl.
      cbn -[stash_step drop_confirm_step]. reflexivity. }
    rewrite H2. reflexivity. }
  rewrite Hrun. unfold history. cbn -[stash_step drop_confirm_step].
  do 3 eexists. split; [reflexivity|]. split; [reflexivity|]. split; [reflexivity|].
  destruct listing; reflexivity.
Qed.

Lemma drop_confirmation_is_reproduced_witness :
  let E := Scenario.env [Scenario.work] (Some [Scenario.wip; Scenario.older]) in
  let pick := SelItems [CommitQuickPickItem Scenario.older false] in
  let result := run E (Scenario.only "drop") [pick; SelDirective Back; pick] in
  exists first confirmation again,
    result = Stop Suspended (world_of result)
    /\ history (world_of result)
       = [Yielded first; Yielded confirmation; Yielded again; Yielded confirmation]
    /\ confirmation = drop_confirm_step E (state (world_of result)) Scenario.work Scenario.older
    /\ menu again
       = [CommitQuickPickItem Scenario.wip false; CommitQuickPickItem Scenario.older true].
Proof.
  intros E pick result.
  exact (drop_confirmation_is_reproduced E Scenario.work Scenario.older false false
           (Some [Scenario.wip; Scenario.older]) eq_refl eq_refl).
Defined.
